(** * Persistence and session synchronisation of the storefront client

    A shallow embedding of [App.tsx] (and of the interfaces of [types.ts])
    together with the part of the JavaScript runtime that the persistence
    code relies on: binary64 numbers, [JSON.stringify], [JSON.parse],
    [localStorage] and property access on the directory object.

    Modelling conventions.
    - A JavaScript string is a [string] whose characters are code units
      below 256.  A blob that needs a larger code unit is reported as
      [Unsupported] by the parser.
    - A JavaScript number is a primitive [float] (binary64).
    - An object is an association list in insertion order.  The special
      enumeration order of integer-like keys is not modelled; it only
      changes the order of the members in a blob, never a lookup.
    - Values read back from storage are given the TypeScript types the
      code declares for them; JSON that is well formed but is not a value
      of that type leaves the model ([IllTyped]). *)

From Stdlib Require Import ZArith List String Ascii Bool Lia Floats.
Import ListNotations.
Local Open Scope Z_scope.

(** * Numbers: the Number value of a decimal, and [Number::toString] *)

Module Number.

Definition number := float.

(** Decimal digits, most significant first, of a non-negative integer. *)
Fixpoint digits_fuel (fuel : nat) (n : Z) (acc : list ascii) : list ascii :=
  match fuel with
  | O => acc
  | S fuel' =>
      let acc' := ascii_of_nat (48 + Z.to_nat (n mod 10)) :: acc in
      if n <? 10 then acc' else digits_fuel fuel' (n / 10) acc'
  end.

Definition digits (n : Z) : list ascii :=
  digits_fuel (S (Z.to_nat (Z.log2 n))) n [].

Definition is_digit (c : ascii) : bool :=
  let n := nat_of_ascii c in (48 <=? n)%nat && (n <=? 57)%nat.

Definition digit_val (c : ascii) : Z := Z.of_nat (nat_of_ascii c) - 48.

Definition digits_val (ds : list ascii) : Z :=
  fold_left (fun acc c => acc * 10 + digit_val c) ds 0.

(** The Number value of [(-1)^neg * M * 10^E]: round to nearest, ties to
    even, in binary64.  A quotient is rounded from [q] with a sticky bit. *)
Definition dec_to_SF (neg : bool) (M E : Z) : spec_float :=
  if M <=? 0 then S754_zero neg
  else if 400 <? E then S754_infinity neg
  else if E + Z.of_nat (List.length (digits M)) <? -400 then S754_zero neg
  else
    let sgn := if neg then -1 else 1 in
    if 0 <=? E then binary_normalize prec emax (sgn * (M * 10 ^ E)) 0 neg
    else
      let D := 10 ^ (- E) in
      let s := Z.max 0 (Z.log2 D + 60 - Z.log2 M) in
      let q := (M * 2 ^ s) / D in
      let r := (M * 2 ^ s) mod D in
      binary_normalize prec emax
        (sgn * (2 * q + (if r =? 0 then 0 else 1))) (- s - 1) neg.

Definition dec_to_number (neg : bool) (M E : Z) : number :=
  SF2Prim (dec_to_SF neg M E).

(** ** [Number::toString]: the shortest digits that read back *)

(** [n0] with [10^(n0-1) <= num/den < 10^n0], for positive [num], [den]. *)
Definition pow10_lt (num den n : Z) : bool :=
  if 0 <=? n then num <? den * 10 ^ n else num * 10 ^ (- n) <? den.

Definition magnitude (num den : Z) : Z :=
  let k := Z.of_nat (List.length (digits num)) - Z.of_nat (List.length (digits den)) in
  if pow10_lt num den k then k else k + 1.

(** The candidates with [k] digits next to [num/den], scaled by
    [10^(k-n0)]: the one below, and the one above when the quotient is
    inexact, with the comparison of the remainder against one half. *)
Definition scaled (num den n0 k : Z) : Z * Z :=
  if 0 <=? k - n0 then (num * 10 ^ (k - n0), den)
  else (num, den * 10 ^ (n0 - k)).

(** [s * 10^e] is read as [x]. *)
Definition roundtrips (x : spec_float) (s e : Z) : bool :=
  SFeqb (dec_to_SF false s e) x.

Definition candidate (x : spec_float) (num den n0 k : Z) : option Z :=
  let '(a, b) := scaled num den n0 k in
  let lo := a / b in
  let r := a mod b in
  if r =? 0 then Some lo
  else
    let hi := lo + 1 in
    let oklo := roundtrips x lo (n0 - k) in
    let okhi := roundtrips x hi (n0 - k) in
    match oklo, okhi with
    | true, true =>
        match 2 * r ?= b with
        | Lt => Some lo
        | Gt => Some hi
        | Eq => Some (if Z.even lo then lo else hi)
        end
    | true, false => Some lo
    | false, true => Some hi
    | false, false => None
    end.

(** The least [k] with a candidate, from [k] upwards: its digits [s] and
    the position [n] of the decimal point.  A binary64 number has a
    candidate of at most 17 digits, so the search started at [k = 1] with
    16 further tries finds one. *)
Fixpoint shortest (fuel : nat) (x : spec_float) (num den n0 k : Z) : Z * Z :=
  match candidate x num den n0 k with
  | Some s => if s =? 10 ^ k then (1, n0 + 1) else (s, n0)
  | None =>
      match fuel with
      | O => (num / den, n0)
      | S fuel' => shortest fuel' x num den n0 (k + 1)
      end
  end.

Definition zeros (n : Z) : list ascii := repeat "0"%char (Z.to_nat n).

(** Number::toString(x, 10) for a positive finite [x = m * 2^e]. *)
Definition positive_to_chars (m : positive) (e : Z) : list ascii :=
  let num := if 0 <=? e then Z.pos m * 2 ^ e else Z.pos m in
  let den := if 0 <=? e then 1 else 2 ^ (- e) in
  let n0 := magnitude num den in
  let '(s, n) := shortest 16 (S754_finite false m e) num den n0 1 in
  let ds := digits s in
  let k := Z.of_nat (List.length ds) in
  if (k <=? n) && (n <=? 21) then ds ++ zeros (n - k)
  else if (0 <? n) && (n <=? 21) then
    firstn (Z.to_nat n) ds ++ "."%char :: skipn (Z.to_nat n) ds
  else if (-6 <? n) && (n <=? 0) then
    "0"%char :: "."%char :: zeros (- n) ++ ds
  else
    let ex := n - 1 in
    let sg := if 0 <=? ex then "+"%char else "-"%char in
    let tail := "e"%char :: sg :: digits (Z.abs ex) in
    match ds with
    | [] => tail
    | d :: [] => d :: tail
    | d :: rest => d :: "."%char :: rest ++ tail
    end.

Definition to_chars (x : number) : list ascii :=
  match Prim2SF x with
  | S754_nan => list_ascii_of_string "NaN"
  | S754_zero _ => ["0"%char]
  | S754_infinity false => list_ascii_of_string "Infinity"
  | S754_infinity true => list_ascii_of_string "-Infinity"
  | S754_finite false m e => positive_to_chars m e
  | S754_finite true m e => "-"%char :: positive_to_chars m e
  end.


(** ** Reading a JSON number token *)

Fixpoint span_digits (cs : list ascii) : list ascii * list ascii :=
  match cs with
  | c :: r =>
      if is_digit c then let '(ds, rest) := span_digits r in (c :: ds, rest)
      else ([], cs)
  | [] => ([], [])
  end.

Definition is_nil {A : Type} (l : list A) : bool :=
  match l with [] => true | _ => false end.

(** The integer part: a single [0], or digits that do not start with [0]. *)
Definition int_part_ok (ds : list ascii) : bool :=
  match ds with
  | [] => false
  | d :: rest => negb (Ascii.eqb d "0") || is_nil rest
  end.

(** The fraction, when there is a [.]: its digits and what follows. *)
Definition frac_part (cs : list ascii) : option (list ascii * list ascii) :=
  match cs with
  | c :: r =>
      if Ascii.eqb c "." then
        let '(ds, rest) := span_digits r in
        if is_nil ds then None else Some (ds, rest)
      else Some ([], cs)
  | [] => Some ([], [])
  end.

(** The exponent, when there is an [e] or [E]: its value and what follows. *)
Definition exp_part (cs : list ascii) : option (Z * list ascii) :=
  match cs with
  | c :: r =>
      if Ascii.eqb c "e" || Ascii.eqb c "E" then
        let '(neg, r1) :=
          match r with
          | s :: r' =>
              if Ascii.eqb s "-" then (true, r')
              else if Ascii.eqb s "+" then (false, r')
              else (false, r)
          | [] => (false, r)
          end in
        let '(ds, rest) := span_digits r1 in
        if is_nil ds then None
        else Some (if neg then - digits_val ds else digits_val ds, rest)
      else Some (0, cs)
  | [] => Some (0, [])
  end.

(** The Number value of a whole token, [None] when the token is not a
    number of the JSON grammar. *)
Definition of_token (cs : list ascii) : option number :=
  let '(neg, cs1) :=
    match cs with
    | c :: r => if Ascii.eqb c "-" then (true, r) else (false, cs)
    | [] => (false, cs)
    end in
  let '(ip, cs2) := span_digits cs1 in
  if int_part_ok ip then
    match frac_part cs2 with
    | Some (fp, cs3) =>
        match exp_part cs3 with
        | Some (ex, []) =>
            Some (dec_to_number neg (digits_val (ip ++ fp))
                    (ex - Z.of_nat (List.length fp)))
        | _ => None
        end
    | None => None
    end
  else None.

(** The characters a number token is made of. *)
Definition is_num_char (c : ascii) : bool :=
  is_digit c || Ascii.eqb c "-" || Ascii.eqb c "+" || Ascii.eqb c "."
  || Ascii.eqb c "e" || Ascii.eqb c "E".

(** A number that [JSON.stringify] writes as a number token which
    [JSON.parse] reads back as the same number. *)
Definition json_safe (x : number) : bool :=
  is_finite x && forallb is_num_char (to_chars x)
  && match of_token (to_chars x) with
     | Some y => Leibniz.eqb x y
     | None => false
     end.

End Number.

(** * JSON text: [JSON.stringify] and [JSON.parse] *)

Module JSON.

Import Number.

Unset Elimination Schemes.
Inductive json : Type :=
| JNull
| JBool (b : bool)
| JNum (x : number)
| JStr (s : string)
| JArr (elems : list json)
| JObj (members : list (string * json)).
Set Elimination Schemes.

Definition dquote : ascii := "034"%char.
Definition backslash : ascii := "\"%char.

(** *** Objects: own properties in insertion order *)

Fixpoint obj_get {A : Type} (k : string) (o : list (string * A)) : option A :=
  match o with
  | [] => None
  | (k', v) :: rest => if String.eqb k k' then Some v else obj_get k rest
  end.

(** Defining a property keeps the place of a key that exists already and
    appends a new key. *)
Fixpoint obj_set {A : Type} (k : string) (v : A) (o : list (string * A))
  : list (string * A) :=
  match o with
  | [] => [(k, v)]
  | (k', v') :: rest =>
      if String.eqb k k' then (k', v) :: rest else (k', v') :: obj_set k v rest
  end.

(** *** Writing *)

Definition hex_char (n : nat) : ascii :=
  if (n <? 10)%nat then ascii_of_nat (48 + n) else ascii_of_nat (87 + n).

(** QuoteJSONString on one code unit. *)
Definition escape_char (c : ascii) : list ascii :=
  let n := nat_of_ascii c in
  if Ascii.eqb c dquote then [backslash; dquote]
  else if Ascii.eqb c backslash then [backslash; backslash]
  else if (n =? 8)%nat then [backslash; "b"%char]
  else if (n =? 9)%nat then [backslash; "t"%char]
  else if (n =? 10)%nat then [backslash; "n"%char]
  else if (n =? 12)%nat then [backslash; "f"%char]
  else if (n =? 13)%nat then [backslash; "r"%char]
  else if (n <? 32)%nat then
    [backslash; "u"%char; "0"%char; "0"%char;
     hex_char (n / 16); hex_char (n mod 16)]
  else [c].

Fixpoint escape (s : string) : list ascii :=
  match s with
  | EmptyString => []
  | String c rest => escape_char c ++ escape rest
  end.

Definition quote (s : string) : list ascii := dquote :: escape s ++ [dquote].

(** The items of an array or object, separated by commas. *)
Fixpoint commas (items : list (list ascii)) : list ascii :=
  match items with
  | [] => []
  | [x] => x
  | x :: rest => x ++ ","%char :: commas rest
  end.

Definition print_number (x : number) : list ascii :=
  if is_finite x then to_chars x else list_ascii_of_string "null".

Fixpoint print (v : json) : list ascii :=
  match v with
  | JNull => list_ascii_of_string "null"
  | JBool true => list_ascii_of_string "true"
  | JBool false => list_ascii_of_string "false"
  | JNum x => print_number x
  | JStr s => quote s
  | JArr elems => "["%char :: commas (map print elems) ++ ["]"%char]
  | JObj members =>
      "{"%char
      :: commas (map (fun kv => quote (fst kv) ++ ":"%char :: print (snd kv))
                   members)
      ++ ["}"%char]
  end.

Definition stringify (v : json) : string := string_of_list_ascii (print v).

(** *** Reading *)

(** [Malformed] is the [SyntaxError] of [JSON.parse]. *)
Inductive parse_result (A : Type) : Type :=
| Parsed (a : A)
| Malformed
| Unsupported.
Arguments Parsed {A} a.
Arguments Malformed {A}.
Arguments Unsupported {A}.

Definition is_ws (c : ascii) : bool :=
  let n := nat_of_ascii c in
  (n =? 32)%nat || (n =? 9)%nat || (n =? 10)%nat || (n =? 13)%nat.

Fixpoint skip_ws (cs : list ascii) : list ascii :=
  match cs with
  | c :: r => if is_ws c then skip_ws r else cs
  | [] => []
  end.

Definition hex_val (c : ascii) : option nat :=
  let n := nat_of_ascii c in
  if (48 <=? n)%nat && (n <=? 57)%nat then Some (n - 48)%nat
  else if (97 <=? n)%nat && (n <=? 102)%nat then Some (n - 87)%nat
  else if (65 <=? n)%nat && (n <=? 70)%nat then Some (n - 55)%nat
  else None.

Definition hex4 (a b c d : ascii) : option nat :=
  match hex_val a, hex_val b, hex_val c, hex_val d with
  | Some x, Some y, Some z, Some w =>
      Some (((x * 16 + y) * 16 + z) * 16 + w)%nat
  | _, _, _, _ => None
  end.

(** The code unit a one-letter escape stands for. *)
Definition simple_escape (e : ascii) : option ascii :=
  if Ascii.eqb e dquote then Some dquote
  else if Ascii.eqb e backslash then Some backslash
  else if Ascii.eqb e "/" then Some "/"%char
  else if Ascii.eqb e "b" then Some "008"%char
  else if Ascii.eqb e "f" then Some "012"%char
  else if Ascii.eqb e "n" then Some "010"%char
  else if Ascii.eqb e "r" then Some "013"%char
  else if Ascii.eqb e "t" then Some "009"%char
  else None.

(** A string, read from just after its opening quote; [acc] holds the
    code units read so far, last first. *)
Fixpoint parse_string (cs : list ascii) (acc : list ascii)
  : parse_result (string * list ascii) :=
  match cs with
  | [] => Malformed
  | c :: r =>
      if Ascii.eqb c dquote then Parsed (string_of_list_ascii (rev acc), r)
      else if Ascii.eqb c backslash then
        match r with
        | [] => Malformed
        | e :: r1 =>
            match simple_escape e with
            | Some x => parse_string r1 (x :: acc)
            | None =>
                if Ascii.eqb e "u" then
                  match r1 with
                  | h1 :: h2 :: h3 :: h4 :: r2 =>
                      match hex4 h1 h2 h3 h4 with
                      | Some n =>
                          if (n <? 256)%nat
                          then parse_string r2 (ascii_of_nat n :: acc)
                          else Unsupported
                      | None => Malformed
                      end
                  | _ => Malformed
                  end
                else Malformed
            end
        end
      else if (nat_of_ascii c <? 32)%nat then Malformed
      else parse_string r (c :: acc)
  end.

Fixpoint span_num (cs : list ascii) : list ascii * list ascii :=
  match cs with
  | c :: r =>
      if is_num_char c then let '(t, rest) := span_num r in (c :: t, rest)
      else ([], cs)
  | [] => ([], [])
  end.

(** [cs] starts with the characters of [word]: what follows them. *)
Fixpoint strip_prefix (word cs : list ascii) : option (list ascii) :=
  match word, cs with
  | [], _ => Some cs
  | w :: word', c :: cs' =>
      if Ascii.eqb w c then strip_prefix word' cs' else None
  | _ :: _, [] => None
  end.

Definition parse_literal (word : string) (v : json) (cs : list ascii)
  : parse_result (json * list ascii) :=
  match strip_prefix (list_ascii_of_string word) cs with
  | Some rest => Parsed (v, rest)
  | None => Malformed
  end.

Definition parse_number (cs : list ascii) : parse_result (json * list ascii) :=
  let '(tok, rest) := span_num cs in
  match of_token tok with
  | Some x => Parsed (JNum x, rest)
  | None => Malformed
  end.

(** A value, the elements of an array after its [[], and the members of
    an object after its [{].  Every call consumes one unit of [fuel]. *)
Fixpoint parse_value (fuel : nat) (cs : list ascii) {struct fuel}
  : parse_result (json * list ascii) :=
  match fuel with
  | O => Malformed
  | S fuel' =>
      match skip_ws cs with
      | [] => Malformed
      | c :: r =>
          if Ascii.eqb c "{" then
            match skip_ws r with
            | c' :: r' =>
                if Ascii.eqb c' "}" then Parsed (JObj [], r')
                else parse_members fuel' r []
            | [] => Malformed
            end
          else if Ascii.eqb c "[" then
            match skip_ws r with
            | c' :: r' =>
                if Ascii.eqb c' "]" then Parsed (JArr [], r')
                else parse_elements fuel' r []
            | [] => Malformed
            end
          else if Ascii.eqb c dquote then
            match parse_string r [] with
            | Parsed (s, rest) => Parsed (JStr s, rest)
            | Malformed => Malformed
            | Unsupported => Unsupported
            end
          else if Ascii.eqb c "n" then parse_literal "null" JNull (c :: r)
          else if Ascii.eqb c "t" then parse_literal "true" (JBool true) (c :: r)
          else if Ascii.eqb c "f" then parse_literal "false" (JBool false) (c :: r)
          else if Ascii.eqb c "-" || is_digit c then parse_number (c :: r)
          else Malformed
      end
  end

with parse_elements (fuel : nat) (cs : list ascii) (acc : list json)
  {struct fuel} : parse_result (json * list ascii) :=
  match fuel with
  | O => Malformed
  | S fuel' =>
      match parse_value fuel' cs with
      | Parsed (v, rest) =>
          match skip_ws rest with
          | c :: r =>
              if Ascii.eqb c "," then parse_elements fuel' r (v :: acc)
              else if Ascii.eqb c "]" then Parsed (JArr (rev (v :: acc)), r)
              else Malformed
          | [] => Malformed
          end
      | other => other
      end
  end

with parse_members (fuel : nat) (cs : list ascii) (acc : list (string * json))
  {struct fuel} : parse_result (json * list ascii) :=
  match fuel with
  | O => Malformed
  | S fuel' =>
      match skip_ws cs with
      | c :: r =>
          if Ascii.eqb c dquote then
            match parse_string r [] with
            | Parsed (k, rest) =>
                match skip_ws rest with
                | c1 :: r1 =>
                    if Ascii.eqb c1 ":" then
                      match parse_value fuel' r1 with
                      | Parsed (v, rest1) =>
                          match skip_ws rest1 with
                          | c2 :: r2 =>
                              if Ascii.eqb c2 ","
                              then parse_members fuel' r2 (obj_set k v acc)
                              else if Ascii.eqb c2 "}"
                              then Parsed (JObj (obj_set k v acc), r2)
                              else Malformed
                          | [] => Malformed
                          end
                      | other => other
                      end
                    else Malformed
                | [] => Malformed
                end
            | Malformed => Malformed
            | Unsupported => Unsupported
            end
          else Malformed
      | [] => Malformed
      end
  end.

(** [JSON.parse]: one value, with nothing but white space after it. *)
Definition parse (text : string) : parse_result json :=
  let cs := list_ascii_of_string text in
  match parse_value (2 * List.length cs + 2) cs with
  | Parsed (v, rest) => if is_nil (skip_ws rest) then Parsed v else Malformed
  | Malformed => Malformed
  | Unsupported => Unsupported
  end.

(** *** What the round trip is stated with *)

Definition print_member (kv : string * json) : list ascii :=
  quote (fst kv) ++ ":"%char :: print (snd kv).

Definition has_key {A : Type} (k : string) (o : list (string * A)) : bool :=
  existsb (String.eqb k) (map fst o).

Fixpoint nodupb (ks : list string) : bool :=
  match ks with
  | [] => true
  | k :: rest => negb (existsb (String.eqb k) rest) && nodupb rest
  end.

(** The members of an object text, defined one after the other. *)
Definition set_all {A : Type} (l acc : list (string * A)) : list (string * A) :=
  fold_left (fun a kv => obj_set (fst kv) (snd kv) a) l acc.

(** The values [JSON.parse] reads back unchanged from their text: numbers
    that are [json_safe], in objects whose keys are pairwise distinct. *)
Fixpoint json_ok (v : json) : bool :=
  match v with
  | JNum x => json_safe x
  | JArr elems => forallb json_ok elems
  | JObj members =>
      nodupb (map fst members) && forallb (fun kv => json_ok (snd kv)) members
  | _ => true
  end.

(** What may follow a value in a text: not a character of a number. *)
Definition delimited (rest : list ascii) : Prop :=
  match rest with
  | [] => True
  | c :: _ => is_num_char c = false
  end.

(** The first character of a text starts a value. *)
Definition starts_value (cs : list ascii) : Prop :=
  exists c r, cs = c :: r /\ is_ws c = false
              /\ Ascii.eqb c "]" = false /\ Ascii.eqb c "}" = false.

(** A printed value is read back, whatever delimiter follows it. *)
Definition reads_back (v : json) : Prop :=
  json_ok v = true ->
  forall fuel rest,
    (List.length (print v) <= fuel)%nat -> delimited rest ->
    parse_value fuel (print v ++ rest) = Parsed (v, rest).

(** Above twice the length of the text, one more unit of fuel changes
    nothing, and what is left after a value is shorter than the text. *)
Definition fuel_enough (fuel : nat) : Prop :=
  (forall cs,
      (2 * List.length cs < fuel)%nat ->
      parse_value (S fuel) cs = parse_value fuel cs
      /\ forall v rest, parse_value fuel cs = Parsed (v, rest) ->
                        (List.length rest < List.length cs)%nat)
  /\ (forall cs acc,
         (2 * List.length cs + 1 < fuel)%nat ->
         parse_elements (S fuel) cs acc = parse_elements fuel cs acc
         /\ forall v rest, parse_elements fuel cs acc = Parsed (v, rest) ->
                           (List.length rest < List.length cs)%nat)
  /\ (forall cs acc,
         (2 * List.length cs + 1 < fuel)%nat ->
         parse_members (S fuel) cs acc = parse_members fuel cs acc
         /\ forall v rest, parse_members fuel cs acc = Parsed (v, rest) ->
                           (List.length rest < List.length cs)%nat).

End JSON.

(** * The interfaces of [types.ts] *)

Module Product.
Record t : Type := mk {
  id : string;
  name : string;
  price : Number.number;
  displayPrice : string;
  category : string;
  description : option string;
  image : option string
}.
End Product.

(** [CartItem extends Product] and adds nothing. *)
Definition CartItem : Type := Product.t.

Module DeliveryDetails.
Record t : Type := mk {
  fullName : string;
  email : string;
  phone : string;
  address : string;
  city : string;
  zip : string
}.
End DeliveryDetails.

Inductive OrderStatus : Type := processing | shipped | delivered.

Module Order.
Record t : Type := mk {
  id : string;
  date : string;
  items : list Product.t;
  total : Number.number;
  status : OrderStatus;
  delivery : option DeliveryDetails.t
}.
End Order.

(** [cart] and [orders] are declared as required, but the code reads them
    as [u.cart || []] and [u.orders || []]: a record may lack them. *)
Module User.
Record t : Type := mk {
  name : string;
  email : string;
  password : option string;
  cart : option (list Product.t);
  orders : option (list Order.t)
}.

(** [u.cart || []] and [u.orders || []]. *)
Definition cart_or_empty (u : t) : list Product.t :=
  match cart u with Some c => c | None => [] end.
Definition orders_or_empty (u : t) : list Order.t :=
  match orders u with Some o => o | None => [] end.

(** [{ ...u, cart: c }] and [{ ...u, orders: o, cart: c }]. *)
Definition with_cart (u : t) (c : list Product.t) : t :=
  mk (name u) (email u) (password u) (Some c) (orders u).
Definition with_orders_cart (u : t) (o : list Order.t) (c : list Product.t) : t :=
  mk (name u) (email u) (password u) (Some c) (Some o).
End User.

(** * The Record Codec: typed values as JSON *)

Module Codec.

Import JSON.
Local Open Scope string_scope.

Definition bind {A B : Type} (x : option A) (f : A -> option B) : option B :=
  match x with Some a => f a | None => None end.

Local Notation "x <- e ;; k" := (bind e (fun x => k))
  (at level 61, e at next level, right associativity).

(** An optional member is left out when absent, as [JSON.stringify] leaves
    out a property that is [undefined]. *)
Definition opt_member (k : string) (v : option json) : list (string * json) :=
  match v with Some j => [(k, j)] | None => [] end.

Definition encode_product (p : Product.t) : json :=
  JObj ([("id", JStr (Product.id p));
         ("name", JStr (Product.name p));
         ("price", JNum (Product.price p));
         ("displayPrice", JStr (Product.displayPrice p));
         ("category", JStr (Product.category p))]
        ++ opt_member "description" (option_map JStr (Product.description p))
        ++ opt_member "image" (option_map JStr (Product.image p))).

Definition encode_cart (c : list Product.t) : json :=
  JArr (map encode_product c).

Definition encode_delivery (d : DeliveryDetails.t) : json :=
  JObj [("fullName", JStr (DeliveryDetails.fullName d));
        ("email", JStr (DeliveryDetails.email d));
        ("phone", JStr (DeliveryDetails.phone d));
        ("address", JStr (DeliveryDetails.address d));
        ("city", JStr (DeliveryDetails.city d));
        ("zip", JStr (DeliveryDetails.zip d))].

Definition encode_status (s : OrderStatus) : json :=
  JStr match s with
       | processing => "processing"
       | shipped => "shipped"
       | delivered => "delivered"
       end.

Definition encode_order (o : Order.t) : json :=
  JObj ([("id", JStr (Order.id o));
         ("date", JStr (Order.date o));
         ("items", encode_cart (Order.items o));
         ("total", JNum (Order.total o));
         ("status", encode_status (Order.status o))]
        ++ opt_member "delivery" (option_map encode_delivery (Order.delivery o))).

Definition encode_user (u : User.t) : json :=
  JObj ([("name", JStr (User.name u));
         ("email", JStr (User.email u))]
        ++ opt_member "password" (option_map JStr (User.password u))
        ++ opt_member "cart" (option_map encode_cart (User.cart u))
        ++ opt_member "orders"
             (option_map (fun os => JArr (map encode_order os)) (User.orders u))).

Definition encode_db (db : list (string * User.t)) : json :=
  JObj (map (fun kv => (fst kv, encode_user (snd kv))) db).

(** Reading a JSON value at a TypeScript type: [None] when the value is
    not of that type. *)
Definition as_string (j : json) : option string :=
  match j with JStr s => Some s | _ => None end.

Definition as_number (j : json) : option Number.number :=
  match j with JNum x => Some x | _ => None end.

Fixpoint traverse {A B : Type} (f : A -> option B) (l : list A) : option (list B) :=
  match l with
  | [] => Some []
  | a :: rest => b <- f a ;; bs <- traverse f rest ;; Some (b :: bs)
  end.

Definition as_array {A : Type} (f : json -> option A) (j : json) : option (list A) :=
  match j with JArr l => traverse f l | _ => None end.

Definition required {A : Type} (f : json -> option A) (k : string)
  (o : list (string * json)) : option A :=
  bind (obj_get k o) f.

Definition optional {A : Type} (f : json -> option A) (k : string)
  (o : list (string * json)) : option (option A) :=
  match obj_get k o with
  | Some j => option_map Some (f j)
  | None => Some None
  end.

(** The object has no member beyond those the interface declares. *)
Definition only_keys (ks : list string) (o : list (string * json)) : bool :=
  forallb (fun kv => existsb (String.eqb (fst kv)) ks) o.

Definition decode_product (j : json) : option Product.t :=
  match j with
  | JObj o =>
      if only_keys ["id"; "name"; "price"; "displayPrice"; "category";
                    "description"; "image"] o
      then
        id <- required as_string "id" o ;;
        name <- required as_string "name" o ;;
        price <- required as_number "price" o ;;
        displayPrice <- required as_string "displayPrice" o ;;
        category <- required as_string "category" o ;;
        description <- optional as_string "description" o ;;
        image <- optional as_string "image" o ;;
        Some (Product.mk id name price displayPrice category description image)
      else None
  | _ => None
  end.

Definition decode_cart (j : json) : option (list Product.t) :=
  as_array decode_product j.

Definition decode_delivery (j : json) : option DeliveryDetails.t :=
  match j with
  | JObj o =>
      if only_keys ["fullName"; "email"; "phone"; "address"; "city"; "zip"] o
      then
        fullName <- required as_string "fullName" o ;;
        email <- required as_string "email" o ;;
        phone <- required as_string "phone" o ;;
        address <- required as_string "address" o ;;
        city <- required as_string "city" o ;;
        zip <- required as_string "zip" o ;;
        Some (DeliveryDetails.mk fullName email phone address city zip)
      else None
  | _ => None
  end.

Definition decode_status (j : json) : option OrderStatus :=
  s <- as_string j ;;
  if String.eqb s "processing" then Some processing
  else if String.eqb s "shipped" then Some shipped
  else if String.eqb s "delivered" then Some delivered
  else None.

Definition decode_order (j : json) : option Order.t :=
  match j with
  | JObj o =>
      if only_keys ["id"; "date"; "items"; "total"; "status"; "delivery"] o
      then
        id <- required as_string "id" o ;;
        date <- required as_string "date" o ;;
        items <- required decode_cart "items" o ;;
        total <- required as_number "total" o ;;
        status <- required decode_status "status" o ;;
        delivery <- optional decode_delivery "delivery" o ;;
        Some (Order.mk id date items total status delivery)
      else None
  | _ => None
  end.

Definition decode_user (j : json) : option User.t :=
  match j with
  | JObj o =>
      if only_keys ["name"; "email"; "password"; "cart"; "orders"] o
      then
        name <- required as_string "name" o ;;
        email <- required as_string "email" o ;;
        password <- optional as_string "password" o ;;
        cart <- optional decode_cart "cart" o ;;
        orders <- optional (as_array decode_order) "orders" o ;;
        Some (User.mk name email password cart orders)
      else None
  | _ => None
  end.

Definition decode_db (j : json) : option (list (string * User.t)) :=
  match j with
  | JObj o => traverse (fun kv => u <- decode_user (snd kv) ;; Some (fst kv, u)) o
  | _ => None
  end.

(** The numbers of a record all survive the JSON text. *)
Definition clean_product (p : Product.t) : bool :=
  Number.json_safe (Product.price p).

Definition clean_order (o : Order.t) : bool :=
  forallb clean_product (Order.items o) && Number.json_safe (Order.total o).

Definition clean_user (u : User.t) : bool :=
  forallb clean_product (User.cart_or_empty u)
  && forallb clean_order (User.orders_or_empty u).

End Codec.

(** * [App.tsx]: the state, the storage and the handlers *)

Module App.

Import JSON Codec.
Local Open Scope string_scope.

Module STORAGE_KEYS.
Definition USERS_DB : string := "quddix_live_store_users".
Definition SESSION : string := "quddix_live_store_session".
Definition GUEST_CART : string := "quddix_live_store_guest_cart".
End STORAGE_KEYS.
Import STORAGE_KEYS.

(** The [useState] cells of the component. *)
Record State : Type := mkState {
  isCatalogOpen : bool;
  isCartOpen : bool;
  isAuthOpen : bool;
  isProfileOpen : bool;
  isCheckoutOpen : bool;
  cartItems : list Product.t;
  user : option User.t
}.

Definition initial_state : State :=
  mkState false false false false false [] None.

(** What a handler acts on: the cells and [localStorage]. *)
Record World : Type := mkWorld {
  react : State;
  localStorage : list (string * string)
}.

Inductive exception : Type := SyntaxError.

(** A handler returns, lets an exception escape (the world is then as the
    handler left it), or meets stored JSON that is not a value of the type
    the code gives it. *)
Inductive outcome (A : Type) : Type :=
| Returns (a : A) (w : World)
| Throws (e : exception) (w : World)
| IllTyped.
Arguments Returns {A} a w.
Arguments Throws {A} e w.
Arguments IllTyped {A}.

Definition M (A : Type) : Type := World -> outcome A.

Definition ret {A : Type} (a : A) : M A := fun w => Returns a w.

Definition mbind {A B : Type} (m : M A) (k : A -> M B) : M B :=
  fun w =>
    match m w with
    | Returns a w' => k a w'
    | Throws e w' => Throws e w'
    | IllTyped => IllTyped
    end.

Notation "x <- e ;; k" := (mbind e (fun x => k))
  (at level 61, e at next level, right associativity).
Notation "e ;;; k" := (mbind e (fun _ => k))
  (at level 61, right associativity).

(** [try { body } catch (e) { handler }]. *)
Definition try_catch {A : Type} (body : M A) (handler : exception -> M A) : M A :=
  fun w =>
    match body w with
    | Throws e w' => handler e w'
    | other => other
    end.

Definition ill_typed {A : Type} : M A := fun _ => IllTyped.

(** *** The setters of the cells *)

Definition update (f : State -> State) : M unit :=
  fun w => Returns tt (mkWorld (f (react w)) (localStorage w)).

Definition setIsCatalogOpen (b : bool) : M unit :=
  update (fun s => mkState b (isCartOpen s) (isAuthOpen s) (isProfileOpen s)
                     (isCheckoutOpen s) (cartItems s) (user s)).
Definition setIsCartOpen (b : bool) : M unit :=
  update (fun s => mkState (isCatalogOpen s) b (isAuthOpen s) (isProfileOpen s)
                     (isCheckoutOpen s) (cartItems s) (user s)).
Definition setIsAuthOpen (b : bool) : M unit :=
  update (fun s => mkState (isCatalogOpen s) (isCartOpen s) b (isProfileOpen s)
                     (isCheckoutOpen s) (cartItems s) (user s)).
Definition setIsProfileOpen (b : bool) : M unit :=
  update (fun s => mkState (isCatalogOpen s) (isCartOpen s) (isAuthOpen s) b
                     (isCheckoutOpen s) (cartItems s) (user s)).
Definition setIsCheckoutOpen (b : bool) : M unit :=
  update (fun s => mkState (isCatalogOpen s) (isCartOpen s) (isAuthOpen s)
                     (isProfileOpen s) b (cartItems s) (user s)).
Definition setCartItems (c : list Product.t) : M unit :=
  update (fun s => mkState (isCatalogOpen s) (isCartOpen s) (isAuthOpen s)
                     (isProfileOpen s) (isCheckoutOpen s) c (user s)).
Definition setUser (u : option User.t) : M unit :=
  update (fun s => mkState (isCatalogOpen s) (isCartOpen s) (isAuthOpen s)
                     (isProfileOpen s) (isCheckoutOpen s) (cartItems s) u).

(** *** [localStorage] *)

Definition obj_remove {A : Type} (k : string) (o : list (string * A))
  : list (string * A) :=
  filter (fun kv => negb (String.eqb k (fst kv))) o.

Definition getItem (k : string) : M (option string) :=
  fun w => Returns (obj_get k (localStorage w)) w.
Definition setItem (k v : string) : M unit :=
  fun w => Returns tt (mkWorld (react w) (obj_set k v (localStorage w))).
Definition removeItem (k : string) : M unit :=
  fun w => Returns tt (mkWorld (react w) (obj_remove k (localStorage w))).

(** [JSON.parse(text)], used at the type [decode] reads. *)
Definition JSON_parse {A : Type} (decode : json -> option A) (text : string) : M A :=
  fun w =>
    match parse text with
    | Parsed j =>
        match decode j with
        | Some a => Returns a w
        | None => IllTyped
        end
    | Malformed => Throws SyntaxError w
    | Unsupported => IllTyped
    end.

(** *** The directory object *)

Definition Directory : Type := list (string * User.t).

(** The property names every object inherits from [Object.prototype]. *)
Definition Object_prototype_keys : list string :=
  ["constructor"; "__defineGetter__"; "__defineSetter__"; "hasOwnProperty";
   "__lookupGetter__"; "__lookupSetter__"; "isPrototypeOf";
   "propertyIsEnumerable"; "toString"; "valueOf"; "__proto__";
   "toLocaleString"].

Definition inherited (k : string) : bool :=
  existsb (String.eqb k) Object_prototype_keys.

(** [db[k]]: an own property, else [undefined]; an inherited member is
    not a [User]. *)
Definition get_user (db : Directory) (k : string) : M (option User.t) :=
  match obj_get k db with
  | Some u => ret (Some u)
  | None => if inherited k then ill_typed else ret None
  end.

(** [db[k] = u]: on an object without an own [__proto__], assigning to
    [__proto__] sets the prototype and creates no property. *)
Definition put_user (db : Directory) (k : string) (u : User.t) : Directory :=
  match obj_get k db with
  | None => if String.eqb k "__proto__" then db else obj_set k u db
  | Some _ => obj_set k u db
  end.

(** [String.prototype.toLowerCase] on code units below 256. *)
Definition lower_char (c : ascii) : ascii :=
  let n := nat_of_ascii c in
  if ((65 <=? n) && (n <=? 90)
      || (192 <=? n) && (n <=? 222) && negb (n =? 215))%nat
  then ascii_of_nat (n + 32)
  else c.

Fixpoint toLowerCase (s : string) : string :=
  match s with
  | EmptyString => EmptyString
  | String c rest => String (lower_char c) (toLowerCase rest)
  end.

(** [db[email] || db[email.toLowerCase()]]. *)
Definition find_user (db : Directory) (email : string) : M (option User.t) :=
  exact <- get_user db email ;;
  match exact with
  | Some u => ret (Some u)
  | None => get_user db (toLowerCase email)
  end.

(** [const dbStr = localStorage.getItem(USERS_DB);
     const db = dbStr ? JSON.parse(dbStr) : {};] *)
Definition load_db : M Directory :=
  dbStr <- getItem USERS_DB ;;
  match dbStr with
  | Some (String _ _ as text) => JSON_parse decode_db text
  | _ => ret []
  end.

(** *** The handlers.  Each closes over the cells [s] of the render that
    created it. *)

Definition persistUser (updatedUser : User.t) : M unit :=
  setUser (Some updatedUser) ;;;
  setItem SESSION (stringify (encode_user updatedUser)) ;;;
  db <- load_db ;;
  setItem USERS_DB
    (stringify (encode_db (put_user db (User.email updatedUser) updatedUser))).

Definition persistGuestCart (items : list Product.t) : M unit :=
  setItem GUEST_CART (stringify (encode_cart items)).

(** The effect that runs once after the first render. *)
Definition initialize : M unit :=
  sessionStr <- getItem SESSION ;;
  match sessionStr with
  | Some (String _ _ as text) =>
      try_catch
        (sessionUser <- JSON_parse decode_user text ;;
         db <- load_db ;;
         found <- find_user db (User.email sessionUser) ;;
         freshUser <-
           match found with
           | Some u => ret u
           | None =>
               setItem USERS_DB
                 (stringify (encode_db
                    (put_user db (User.email sessionUser) sessionUser))) ;;;
               ret sessionUser
           end ;;
         setUser (Some freshUser) ;;;
         setCartItems (User.cart_or_empty freshUser))
        (fun _ => removeItem SESSION)
  | _ =>
      guestCartStr <- getItem GUEST_CART ;;
      match guestCartStr with
      | Some (String _ _ as text) =>
          try_catch
            (items <- JSON_parse decode_cart text ;; setCartItems items)
            (fun _ => ret tt)
      | _ => ret tt
      end
  end.

Definition addToCart (s : State) (product : Product.t) : M unit :=
  let newCart := (cartItems s ++ [product])%list in
  setCartItems newCart ;;;
  match user s with
  | Some u => persistUser (User.with_cart u newCart)
  | None => persistGuestCart newCart
  end ;;;
  setIsCartOpen true.

Definition removeFromCart (s : State) (id : string) : M unit :=
  let newCart :=
    filter (fun item => negb (String.eqb (Product.id item) id)) (cartItems s) in
  setCartItems newCart ;;;
  match user s with
  | Some u => persistUser (User.with_cart u newCart)
  | None => persistGuestCart newCart
  end.

Definition initCheckout : M unit :=
  setIsCartOpen false ;;; setIsCheckoutOpen true.

(** [cartItems.reduce((acc, item) => acc + item.price, 0)]. *)
Definition cart_total (items : list Product.t) : Number.number :=
  fold_left (fun acc item => (acc + Product.price item)%float) items 0%float.

(** The order literal of [processOrder]; [randomId] is what the
    [Math.random()] expression yields and [now] is
    [new Date().toISOString()]. *)
Definition newOrder (s : State) (randomId now : string)
  (deliveryDetails : DeliveryDetails.t) : Order.t :=
  Order.mk randomId now (cartItems s) (cart_total (cartItems s))
    processing (Some deliveryDetails).

Definition processOrder (s : State) (randomId now : string)
  (deliveryDetails : DeliveryDetails.t) : M unit :=
  if Nat.eqb (List.length (cartItems s)) 0 then ret tt
  else
    let order := newOrder s randomId now deliveryDetails in
    match user s with
    | Some u =>
        persistUser
          (User.with_orders_cart u (User.orders_or_empty u ++ [order])%list []) ;;;
        setIsProfileOpen true
    | None =>
        setCartItems [] ;;;
        removeItem GUEST_CART
    end ;;;
    setIsCheckoutOpen false ;;;
    setCartItems [].

Definition handleLogin (s : State) (userFromAuth : User.t) : M unit :=
  db <- load_db ;;
  found <- find_user db (User.email userFromAuth) ;;
  let freshUser := match found with Some u => u | None => userFromAuth end in
  let guestCart := cartItems s in
  let userCart := User.cart_or_empty freshUser in
  let mergedCart := (userCart ++ guestCart)%list in
  let updatedUser := User.with_cart freshUser mergedCart in
  persistUser updatedUser ;;;
  setCartItems mergedCart ;;;
  removeItem GUEST_CART ;;;
  setIsAuthOpen false.

(** [confirmed] is the answer of [window.confirm]. *)
Definition handleLogout (confirmed : bool) : M unit :=
  if confirmed then
    removeItem SESSION ;;;
    setUser None ;;;
    setCartItems [] ;;;
    setIsProfileOpen false
  else ret tt.

(** An event runs a handler of the current render. *)
Definition dispatch {A : Type} (handler : State -> M A) : M A :=
  fun w => handler (react w) w.

(** The handler returns, and [P] holds of the world it leaves. *)
Definition returns_with {A : Type} (o : outcome A) (P : World -> Prop) : Prop :=
  match o with
  | Returns _ w => P w
  | _ => False
  end.

(** The handler throws, and [P] holds of the world it leaves. *)
Definition throws_with {A : Type} (o : outcome A) (P : World -> Prop) : Prop :=
  match o with
  | Throws _ w => P w
  | _ => False
  end.

(** *** Reading the three blobs back *)

Inductive stored (A : Type) : Type :=
| Absent
| Value (a : A)
| Corrupt
| NotTyped.
Arguments Absent {A}.
Arguments Value {A} a.
Arguments Corrupt {A}.
Arguments NotTyped {A}.

Definition read {A : Type} (decode : json -> option A) (k : string) (w : World)
  : stored A :=
  match obj_get k (localStorage w) with
  | None => Absent
  | Some text =>
      match parse text with
      | Parsed j => match decode j with Some a => Value a | None => NotTyped end
      | Malformed => Corrupt
      | Unsupported => NotTyped
      end
  end.

Definition session (w : World) : stored User.t := read decode_user SESSION w.
Definition directory (w : World) : stored Directory := read decode_db USERS_DB w.
Definition guest_cart (w : World) : stored (list Product.t) :=
  read decode_cart GUEST_CART w.

(** *** Well-formed data *)

(** An email that names no member of [Object.prototype], as it is and in
    lower case. *)
Definition ok_key (k : string) : bool :=
  negb (inherited k) && negb (inherited (toLowerCase k)).

(** Every email address is one: it holds an [@]. *)
Definition is_address (k : string) : bool :=
  existsb (Ascii.eqb "@") (list_ascii_of_string k).

Definition wf_user (u : User.t) : bool :=
  clean_user u && ok_key (User.email u).

(** Every account of the directory is well formed. *)
Definition wf_accounts (db : Directory) : bool :=
  forallb (fun kv => wf_user (snd kv)) db.

Definition wf_dir (db : Directory) : bool :=
  nodupb (map fst db) && wf_accounts db.

(** *** What [persistUser] leaves behind *)

Definition signed_in (u : User.t) (s : State) : State :=
  mkState (isCatalogOpen s) (isCartOpen s) (isAuthOpen s) (isProfileOpen s)
    (isCheckoutOpen s) (cartItems s) (Some u).

Definition persisted (u : User.t) (db : Directory) (w : World) : World :=
  mkWorld (signed_in u (react w))
    (obj_set USERS_DB (stringify (encode_db (put_user db (User.email u) u)))
       (obj_set SESSION (stringify (encode_user u)) (localStorage w))).

(** *** The operations that change a cart or an order history *)

Inductive mutation : Type :=
| AddToCart (product : Product.t)
| RemoveFromCart (id : string)
| ProcessOrder (randomId now : string) (deliveryDetails : DeliveryDetails.t)
| Login (userFromAuth : User.t).

Definition run (m : mutation) : M unit :=
  match m with
  | AddToCart product => dispatch (fun s => addToCart s product)
  | RemoveFromCart id => dispatch (fun s => removeFromCart s id)
  | ProcessOrder randomId now deliveryDetails =>
      dispatch (fun s => processOrder s randomId now deliveryDetails)
  | Login userFromAuth => dispatch (fun s => handleLogin s userFromAuth)
  end.

(** What each of them needs: a signed-in, well-formed account (for a
    login, a well-formed authenticated record), and numbers that survive
    the JSON text in whatever it adds. *)
Definition ready (m : mutation) (w : World) : Prop :=
  forallb clean_product (cartItems (react w)) = true /\
  match m with
  | AddToCart product =>
      (exists u, user (react w) = Some u /\ wf_user u = true)
      /\ clean_product product = true
  | RemoveFromCart _ =>
      exists u, user (react w) = Some u /\ wf_user u = true
  | ProcessOrder _ _ _ =>
      (exists u, user (react w) = Some u /\ wf_user u = true)
      /\ cartItems (react w) <> []
      /\ Number.json_safe (cart_total (cartItems (react w))) = true
  | Login userFromAuth => wf_user userFromAuth = true
  end.

(** *** Persisting a record and decoding it back *)

Definition reload_user (u : User.t) : stored User.t :=
  match parse (stringify (encode_user u)) with
  | Parsed j => match decode_user j with Some a => Value a | None => NotTyped end
  | Malformed => Corrupt
  | Unsupported => NotTyped
  end.

End App.

(** * The data of the testable properties *)

Module Examples.

Import JSON Codec App App.STORAGE_KEYS.
Local Open Scope string_scope.

Definition product (id : string) (price : Number.number) : Product.t :=
  Product.mk id id price "" "carving" None None.

Definition p1 : Product.t := product "p1" 10%float.
Definition p2 : Product.t := product "p2" 25.5%float.
Definition p3 : Product.t := product "p3" 7%float.

(** An account with no password, and one without cart and orders. *)
Definition alice : User.t :=
  User.mk "Alice" "alice@x.com" None (Some [p1; p2]) (Some []).
Definition alice_auth : User.t :=
  User.mk "Alice" "alice@x.com" (Some "secret") None None.
Definition bob : User.t :=
  User.mk "Bob" "bob@x.com" (Some "hunter2") (Some [p3]) (Some []).

Definition delivery : DeliveryDetails.t :=
  DeliveryDetails.mk "Alice A" "alice@x.com" "555" "1 Oak St" "Town" "00001".

Definition world (s : State) (blobs : list (string * string)) : World :=
  mkWorld s blobs.

Definition with_cart (c : list Product.t) (u : option User.t) : State :=
  mkState false false false false false c u.

(** Before login: the guest cart is [p2; p3]. *)
Definition guest_world : World :=
  world (with_cart [p2; p3] None)
    [(USERS_DB, stringify (encode_db [("alice@x.com", alice); ("bob@x.com", bob)]));
     (GUEST_CART, stringify (encode_cart [p2; p3]))].

(** Alice signed in with [p1; p2] in the cart. *)
Definition alice_world : World :=
  world (with_cart [p1; p2] (Some alice))
    [(USERS_DB, stringify (encode_db [("alice@x.com", alice); ("bob@x.com", bob)]));
     (SESSION, stringify (encode_user alice))].

(** Alice signed in with an empty cart. *)
Definition alice_empty_world : World :=
  world (with_cart [] (Some (User.with_cart alice [])))
    [(USERS_DB,
      stringify (encode_db [("alice@x.com", User.with_cart alice []);
                            ("bob@x.com", bob)]));
     (SESSION, stringify (encode_user (User.with_cart alice [])))].

(** A session that outlived the directory. *)
Definition healing_world : World :=
  world initial_state
    [(USERS_DB, stringify (encode_db [("bob@x.com", bob)]));
     (SESSION, stringify (encode_user alice))].

(** The directory knows the account under [Alice@X.com]; the session
    carries [alice@x.com] and an empty cart. *)
Definition Alice_cased : User.t :=
  User.mk "Alice" "Alice@X.com" None (Some [p1; p2]) (Some []).

Definition cased_world : World :=
  world initial_state
    [(USERS_DB, stringify (encode_db [("Alice@X.com", Alice_cased)]));
     (SESSION, stringify (encode_user (User.with_cart alice [])))].

(** A guest whose cart holds [p2] three times. *)
Definition duplicates_world : World :=
  world (with_cart [p2; p1; p2; p3; p2] None)
    [(GUEST_CART, stringify (encode_cart [p2; p1; p2; p3; p2]))].

(** A directory blob that is not JSON. *)
Definition corrupt_world : World :=
  world initial_state
    [(USERS_DB, "{"); (SESSION, stringify (encode_user alice))].

(** A record whose price is not a number. *)
Definition nan_user : User.t :=
  User.mk "Nan" "nan@x.com" None (Some [product "p0" PrimFloat.nan]) None.

End Examples.

(** * [App.tsx]: page load, sequences of events and what a render shows *)

Module Page.

Import JSON Codec App App.STORAGE_KEYS.
Local Open Scope string_scope.

(** *** Page load: the first render has the initial cells, then the
    effect runs on what the browser has stored *)

Definition load (storage : list (string * string)) : outcome unit :=
  initialize (mkWorld initial_state storage).

(** A reload keeps [localStorage] and nothing else. *)
Definition reload : M unit := fun w => load (localStorage w).

(** The branch of the effect for a visitor: [getItem(SESSION)] is [null]
    or the empty string. *)
Definition no_session (w : World) : Prop :=
  obj_get SESSION (localStorage w) = None
  \/ obj_get SESSION (localStorage w) = Some "".

(** One event after another: the second handler is the one of the render
    that follows the first. *)
Definition and_then (o : outcome unit) (next : M unit) : outcome unit :=
  match o with
  | Returns _ w => next w
  | other => other
  end.

(** Events in a row, each handled by the render the one before left. *)
Fixpoint events (handlers : list (M unit)) : M unit :=
  match handlers with
  | [] => ret tt
  | handler :: rest => handler ;;; events rest
  end.

(** *** The two edits of a cart *)

Inductive edit : Type :=
| Add (product : Product.t)
| Remove (id : string).

Definition on_edit (e : edit) : M unit :=
  match e with
  | Add product => dispatch (fun s => addToCart s product)
  | Remove id => dispatch (fun s => removeFromCart s id)
  end.

(** The [newCart] of [addToCart] and of [removeFromCart]. *)
Definition edit_cart (c : list Product.t) (e : edit) : list Product.t :=
  match e with
  | Add product => c ++ [product]
  | Remove id => filter (fun item => negb (String.eqb (Product.id item) id)) c
  end.

(** The world a handler leaves, whether it returns or lets an exception
    escape. *)
Definition left_by (o : outcome unit) : option World :=
  match o with
  | Returns _ w => Some w
  | Throws _ w => Some w
  | IllTyped => None
  end.

(** *** What a render hands to its children *)

(** The [total] of the [Checkout] modal. *)
Definition checkout_total (s : State) : Number.number :=
  cart_total (cartItems s).

(** The badge of the cart button: shown when [cartItems.length > 0]. *)
Definition cart_badge (s : State) : option nat :=
  match cartItems s with
  | [] => None
  | c => Some (List.length c)
  end.

(** *** The record a mutation starts from and the one it persists *)

(** [db[email] || db[email.toLowerCase()]] when neither read meets a
    member of [Object.prototype]. *)
Definition own_or_lowered (db : Directory) (email : string) : option User.t :=
  match obj_get email db with
  | Some u => Some u
  | None => obj_get (toLowerCase email) db
  end.

(** The signed-in user; at login, [freshUser]. *)
Definition account (m : mutation) (w : World) (db : Directory) : option User.t :=
  match m with
  | Login userFromAuth =>
      Some match own_or_lowered db (User.email userFromAuth) with
           | Some u => u
           | None => userFromAuth
           end
  | _ => user (react w)
  end.

(** The [updatedUser] each handler passes to [persistUser]. *)
Definition updated (m : mutation) (s : State) (u : User.t) : User.t :=
  match m with
  | AddToCart product => User.with_cart u (cartItems s ++ [product])
  | RemoveFromCart id =>
      User.with_cart u
        (filter (fun item => negb (String.eqb (Product.id item) id))
           (cartItems s))
  | ProcessOrder randomId now deliveryDetails =>
      User.with_orders_cart u
        (User.orders_or_empty u ++ [newOrder s randomId now deliveryDetails]) []
  | Login _ => User.with_cart u (User.cart_or_empty u ++ cartItems s)
  end.

(** What a mutation needs to run its course: somebody signed in (a cart
    that is not empty, for a checkout); at login, an email whose lookup
    meets no member of [Object.prototype]. *)
Definition applicable (m : mutation) (w : World) : Prop :=
  match m with
  | Login userFromAuth => ok_key (User.email userFromAuth) = true
  | ProcessOrder _ _ _ =>
      (exists u, user (react w) = Some u) /\ cartItems (react w) <> []
  | _ => exists u, user (react w) = Some u
  end.

(** [localStorage] after a mutation that persisted [u]: the Session and
    the directory written, the guest cart removed at login. *)
Definition stored_after (m : mutation) (u : User.t) (db : Directory) (w : World)
  : list (string * string) :=
  let written := localStorage (persisted u db w) in
  match m with
  | Login _ => obj_remove GUEST_CART written
  | _ => written
  end.

(** *** More data for the examples *)

(** A visitor with a stored guest cart and no session. *)
Definition visitor_storage : list (string * string) :=
  [(GUEST_CART, stringify (encode_cart [Examples.p2; Examples.p3]))].

(** A guest with [p1; p2] in the cart, stored. *)
Definition guest_shopping : World :=
  mkWorld (Examples.with_cart [Examples.p1; Examples.p2] None)
    [(GUEST_CART, stringify (encode_cart [Examples.p1; Examples.p2]))].

(** A guest cart blob and a session blob that are not JSON. *)
Definition broken_guest_cart : World :=
  mkWorld initial_state [(GUEST_CART, "[{")].
Definition broken_session : World :=
  mkWorld initial_state
    [(SESSION, "{oops");
     (GUEST_CART, stringify (encode_cart [Examples.p3]))].

(** A session that carries an empty cart and the capitalised email while
    the directory holds [p1; p2] under the lower-case key. *)
Definition stale_session : World :=
  mkWorld initial_state
    [(USERS_DB, stringify (encode_db [("alice@x.com", Examples.alice)]));
     (SESSION,
      stringify (encode_user (User.mk "Alice" "Alice@X.com" None (Some []) None)))].

(** Alice signed in with [p1; p2] in the cart, over a directory blob that
    is not JSON; and the world her [addToCart] of [p3] leaves there. *)
Definition signed_in_corrupt_directory : World :=
  mkWorld (Examples.with_cart [Examples.p1; Examples.p2] (Some Examples.alice))
    [(USERS_DB, "{"); (SESSION, stringify (encode_user Examples.alice))].

Definition after_failed_add : World :=
  mkWorld
    (Examples.with_cart [Examples.p1; Examples.p2; Examples.p3]
       (Some (User.with_cart Examples.alice
                [Examples.p1; Examples.p2; Examples.p3])))
    [(USERS_DB, "{");
     (SESSION,
      stringify
        (encode_user
           (User.with_cart Examples.alice
              [Examples.p1; Examples.p2; Examples.p3])))].

End Page.

(** * Facts about the JSON text *)

Module JSONFacts.
Import Number JSON.

Lemma json_nested_ind (P : json -> Prop) :
  P JNull ->
  (forall b, P (JBool b)) ->
  (forall x, P (JNum x)) ->
  (forall s, P (JStr s)) ->
  (forall elems, Forall P elems -> P (JArr elems)) ->
  (forall members, Forall (fun kv => P (snd kv)) members -> P (JObj members)) ->
  forall v, P v.
Proof.
  intros Hnull Hbool Hnum Hstr Harr Hobj.
  fix IH 1.
  intros [ | b | x | s | elems | members ].
  - exact Hnull.
  - apply Hbool.
  - apply Hnum.
  - apply Hstr.
  - apply Harr. induction elems as [ | e elems IHe ]; constructor.
    + apply IH.
    + exact IHe.
  - apply Hobj. induction members as [ | [k e] members IHm ]; constructor.
    + apply IH.
    + exact IHm.
Qed.

(** **** Strings *)

Lemma parse_string_escape_char c tl acc :
  parse_string (escape_char c ++ tl) acc = parse_string tl (c :: acc).
Proof.
  destruct c as [[|] [|] [|] [|] [|] [|] [|] [|]]; reflexivity.
Qed.

Lemma parse_string_escape s rest acc :
  parse_string (escape s ++ dquote :: rest) acc
  = Parsed (string_of_list_ascii (rev acc ++ list_ascii_of_string s), rest).
Proof.
  revert acc. induction s as [ | c s IH ]; intro acc.
  - simpl. rewrite app_nil_r. reflexivity.
  - simpl escape. rewrite <- app_assoc, parse_string_escape_char, IH.
    simpl. rewrite <- app_assoc. reflexivity.
Qed.

Lemma parse_string_quote s rest :
  parse_string (escape s ++ dquote :: rest) []
  = Parsed (s, rest).
Proof.
  rewrite parse_string_escape. simpl.
  rewrite string_of_list_ascii_of_string. reflexivity.
Qed.


(** **** Numbers *)

Lemma of_token_head tok y :
  of_token tok = Some y ->
  exists c r, tok = c :: r /\ (Ascii.eqb c "-" || is_digit c) = true.
Proof.
  destruct tok as [ | c r ].
  - discriminate.
  - intros H. exists c, r. split; [ reflexivity | ].
    unfold of_token in H.
    destruct (Ascii.eqb c "-") eqn:Hm; [ reflexivity | ].
    simpl in H. destruct (is_digit c) eqn:Hd; [ reflexivity | ].
    discriminate.
Qed.

Lemma span_num_app tok rest :
  forallb is_num_char tok = true -> delimited rest ->
  span_num (tok ++ rest) = (tok, rest).
Proof.
  intros Htok Hrest. induction tok as [ | c tok IH ].
  - destruct rest as [ | c rest ]; [ reflexivity | ].
    simpl in *. rewrite Hrest. reflexivity.
  - simpl in *. apply andb_prop in Htok as [Hc Htok].
    rewrite Hc, (IH Htok). reflexivity.
Qed.

Lemma number_head_dispatch c :
  (Ascii.eqb c "-" || is_digit c) = true ->
  is_ws c = false /\ Ascii.eqb c "{" = false /\ Ascii.eqb c "[" = false
  /\ Ascii.eqb c dquote = false /\ Ascii.eqb c "n" = false
  /\ Ascii.eqb c "t" = false /\ Ascii.eqb c "f" = false
  /\ Ascii.eqb c "]" = false /\ Ascii.eqb c "}" = false.
Proof.
  destruct c as [[|] [|] [|] [|] [|] [|] [|] [|]];
    intro H; try discriminate H; repeat split; reflexivity.
Qed.

Lemma parse_value_number fuel x rest :
  json_safe x = true -> delimited rest ->
  parse_value (S fuel) (print_number x ++ rest) = Parsed (JNum x, rest).
Proof.
  unfold json_safe, print_number. intros H Hrest.
  apply andb_prop in H as [H Hback]. apply andb_prop in H as [Hfin Hchars].
  rewrite Hfin.
  destruct (of_token (to_chars x)) as [ y | ] eqn:Htok; [ | discriminate ].
  apply FloatAxioms.Leibniz.eqb_spec in Hback. subst y.
  destruct (of_token_head _ _ Htok) as (c & r & Heq & Hc).
  assert (Hspan := span_num_app _ _ Hchars Hrest).
  rewrite Heq in *.
  destruct (number_head_dispatch c Hc)
    as (Hws & H1 & H2 & H3 & H4 & H5 & H6 & _).
  simpl. rewrite Hws, H1, H2, H3, H4, H5, H6, Hc.
  unfold parse_number. simpl app in Hspan. rewrite Hspan, Htok. reflexivity.
Qed.


Lemma print_starts_value v :
  json_ok v = true -> starts_value (print v).
Proof.
  destruct v as [ | [|] | x | s | elems | members ]; simpl; intro H;
    try (eexists _, _; repeat split; reflexivity).
  unfold print_number, json_safe in *.
  apply andb_prop in H as [H Hback]. apply andb_prop in H as [Hfin Hchars].
  rewrite Hfin.
  destruct (of_token (to_chars x)) as [ y | ] eqn:Htok; [ | discriminate ].
  destruct (of_token_head _ _ Htok) as (c & r & Heq & Hc).
  destruct (number_head_dispatch c Hc) as (Hws & _ & _ & _ & _ & _ & _ & H7 & H8).
  exists c, r. auto.
Qed.

Lemma print_nonempty v : json_ok v = true -> (1 <= List.length (print v))%nat.
Proof.
  intro H. destruct (print_starts_value v H) as (c & r & Heq & _).
  rewrite Heq. simpl. lia.
Qed.


(** **** Objects as association lists *)


Lemma obj_set_fresh {A : Type} k (v : A) o :
  has_key k o = false -> obj_set k v o = o ++ [(k, v)].
Proof.
  unfold has_key. induction o as [ | [k' v'] o IH ]; simpl; intro H.
  - reflexivity.
  - apply orb_false_elim in H as [Hk Ho]. rewrite Hk, (IH Ho). reflexivity.
Qed.

Lemma has_key_app {A : Type} k (o1 o2 : list (string * A)) :
  has_key k (o1 ++ o2) = has_key k o1 || has_key k o2.
Proof.
  unfold has_key. rewrite map_app, existsb_app. reflexivity.
Qed.


Lemma set_all_nodup {A : Type} (l acc : list (string * A)) :
  nodupb (map fst l) = true ->
  (forall k, has_key k l = true -> has_key k acc = false) ->
  set_all l acc = acc ++ l.
Proof.
  revert acc. induction l as [ | [k v] l IH ]; intros acc Hnd Hdis.
  - simpl. rewrite app_nil_r. reflexivity.
  - simpl in Hnd. apply andb_prop in Hnd as [Hk Hnd].
    apply negb_true_iff in Hk.
    unfold set_all in *. simpl.
    rewrite obj_set_fresh.
    + rewrite (IH _ Hnd).
      * rewrite <- app_assoc. reflexivity.
      * intros k' Hk'. rewrite has_key_app.
        rewrite (Hdis k').
        -- simpl. unfold has_key. simpl.
           destruct (String.eqb k' k) eqn:E; [ | reflexivity ].
           apply String.eqb_eq in E. subst k'.
           unfold has_key in Hk'. congruence.
        -- unfold has_key in *. simpl. rewrite Hk'. apply orb_true_r.
    + apply Hdis. unfold has_key. simpl. rewrite String.eqb_refl. reflexivity.
Qed.

(** **** Values *)

Lemma parse_value_S fuel cs :
  parse_value (S fuel) cs =
  match skip_ws cs with
  | [] => Malformed
  | c :: r =>
      if Ascii.eqb c "{" then
        match skip_ws r with
        | c' :: r' =>
            if Ascii.eqb c' "}" then Parsed (JObj [], r')
            else parse_members fuel r []
        | [] => Malformed
        end
      else if Ascii.eqb c "[" then
        match skip_ws r with
        | c' :: r' =>
            if Ascii.eqb c' "]" then Parsed (JArr [], r')
            else parse_elements fuel r []
        | [] => Malformed
        end
      else if Ascii.eqb c dquote then
        match parse_string r [] with
        | Parsed (s, rest) => Parsed (JStr s, rest)
        | Malformed => Malformed
        | Unsupported => Unsupported
        end
      else if Ascii.eqb c "n" then parse_literal "null" JNull (c :: r)
      else if Ascii.eqb c "t" then parse_literal "true" (JBool true) (c :: r)
      else if Ascii.eqb c "f" then parse_literal "false" (JBool false) (c :: r)
      else if Ascii.eqb c "-" || is_digit c then parse_number (c :: r)
      else Malformed
  end.
Proof. reflexivity. Qed.

Lemma parse_elements_S fuel cs acc :
  parse_elements (S fuel) cs acc =
  match parse_value fuel cs with
  | Parsed (v, rest) =>
      match skip_ws rest with
      | c :: r =>
          if Ascii.eqb c "," then parse_elements fuel r (v :: acc)
          else if Ascii.eqb c "]" then Parsed (JArr (rev (v :: acc)), r)
          else Malformed
      | [] => Malformed
      end
  | other => other
  end.
Proof. reflexivity. Qed.

Lemma parse_members_S fuel cs acc :
  parse_members (S fuel) cs acc =
  match skip_ws cs with
  | c :: r =>
      if Ascii.eqb c dquote then
        match parse_string r [] with
        | Parsed (k, rest) =>
            match skip_ws rest with
            | c1 :: r1 =>
                if Ascii.eqb c1 ":" then
                  match parse_value fuel r1 with
                  | Parsed (v, rest1) =>
                      match skip_ws rest1 with
                      | c2 :: r2 =>
                          if Ascii.eqb c2 ","
                          then parse_members fuel r2 (obj_set k v acc)
                          else if Ascii.eqb c2 "}"
                          then Parsed (JObj (obj_set k v acc), r2)
                          else Malformed
                      | [] => Malformed
                      end
                  | other => other
                  end
                else Malformed
            | [] => Malformed
            end
        | Malformed => Malformed
        | Unsupported => Unsupported
        end
      else Malformed
  | [] => Malformed
  end.
Proof. reflexivity. Qed.

Lemma commas_cons x items :
  commas (x :: items)
  = x ++ match items with [] => [] | _ => ","%char :: commas items end.
Proof.
  destruct items; simpl; [ rewrite app_nil_r | ]; reflexivity.
Qed.


Lemma parse_elements_print elems :
  Forall reads_back elems -> forallb json_ok elems = true -> elems <> [] ->
  forall fuel acc rest,
    (List.length (commas (map print elems)) < fuel)%nat ->
    parse_elements fuel (commas (map print elems) ++ "]"%char :: rest) acc
    = Parsed (JArr (rev acc ++ elems), rest).
Proof.
  induction 1 as [ | v elems Hv Hall IH ]; intros Hok Hne fuel acc rest Hfuel.
  - contradiction.
  - simpl in Hok. apply andb_prop in Hok as [Hokv Hok].
    simpl map in *. rewrite commas_cons in *.
    rewrite length_app in Hfuel.
    destruct fuel as [ | fuel ]; [ lia | ].
    rewrite parse_elements_S. rewrite <- app_assoc.
    destruct elems as [ | v2 elems ].
    + simpl app at 2. rewrite (Hv Hokv); [ | simpl in Hfuel; lia | reflexivity ].
      reflexivity.
    + remember (v2 :: elems) as l eqn:Hl.
      assert (Hcs : (match map print l with
                     | [] => []
                     | _ :: _ => ","%char :: commas (map print l)
                     end ++ "]"%char :: rest)
                    = ","%char :: (commas (map print l) ++ "]"%char :: rest)).
      { subst l. reflexivity. }
      assert (Hlen : (List.length (commas (map print l))
                      < List.length (match map print l with
                                     | [] => []
                                     | _ :: _ => ","%char :: commas (map print l)
                                     end))%nat).
      { subst l. simpl. lia. }
      rewrite Hcs.
      rewrite (Hv Hokv); [ | lia | reflexivity ].
      simpl skip_ws. cbv iota. simpl Ascii.eqb. cbv iota.
      rewrite IH; [ | exact Hok | subst l; discriminate | lia ].
      simpl. rewrite <- app_assoc. reflexivity.
Qed.



Lemma parse_members_print members :
  Forall (fun kv => reads_back (snd kv)) members ->
  forallb (fun kv => json_ok (snd kv)) members = true -> members <> [] ->
  forall fuel acc rest,
    (List.length (commas (map print_member members)) < fuel)%nat ->
    parse_members fuel (commas (map print_member members) ++ "}"%char :: rest) acc
    = Parsed (JObj (set_all members acc), rest).
Proof.
  induction 1 as [ | [k v] members Hv Hall IH ];
    intros Hok Hne fuel acc rest Hfuel.
  - contradiction.
  - simpl in Hok. apply andb_prop in Hok as [Hokv Hok].
    simpl in Hv, Hokv.
    simpl map in *. rewrite commas_cons in *.
    rewrite length_app in Hfuel.
    destruct fuel as [ | fuel ]; [ lia | ].
    rewrite parse_members_S.
    unfold print_member at 1. unfold print_member at 1 in Hfuel.
    unfold quote in *. simpl fst in *. simpl snd in *.
    simpl app. simpl skip_ws. cbv iota. simpl Ascii.eqb. cbv iota.
    repeat rewrite <- app_assoc. simpl app.
    rewrite parse_string_quote.
    simpl skip_ws. cbv iota. simpl Ascii.eqb. cbv iota.
    simpl List.length in Hfuel. rewrite !length_app in Hfuel.
    simpl List.length in Hfuel.
    destruct members as [ | m2 members ].
    + simpl app. rewrite (Hv Hokv); [ | lia | reflexivity ].
      reflexivity.
    + remember (m2 :: members) as l eqn:Hl.
      assert (Hcs : (match map print_member l with
                     | [] => []
                     | _ :: _ => ","%char :: commas (map print_member l)
                     end ++ "}"%char :: rest)
                    = ","%char :: (commas (map print_member l) ++ "}"%char :: rest)).
      { subst l. reflexivity. }
      assert (Hlen : (List.length (commas (map print_member l))
                      < List.length (match map print_member l with
                                     | [] => []
                                     | _ :: _ => ","%char :: commas (map print_member l)
                                     end))%nat).
      { subst l. simpl. lia. }
      rewrite Hcs.
      rewrite (Hv Hokv); [ | lia | reflexivity ].
      simpl skip_ws. cbv iota. simpl Ascii.eqb. cbv iota.
      rewrite IH; [ | exact Hok | subst l; discriminate | lia ].
      reflexivity.
Qed.

Lemma print_obj members :
  print (JObj members)
  = "{"%char :: commas (map print_member members) ++ ["}"%char].
Proof. reflexivity. Qed.

Lemma commas_starts_value (items : list (list ascii)) x rest tail :
  starts_value x -> starts_value (commas (x :: rest) ++ tail).
Proof.
  intros (c & r & Heq & H). rewrite commas_cons, Heq.
  exists c. eexists. split; [ reflexivity | exact H ].
Qed.

(** [JSON.parse] reads back what [JSON.stringify] wrote. *)
Lemma print_reads_back v : reads_back v.
Proof.
  induction v as [ | b | x | s | elems IH | members IH ] using json_nested_ind;
    unfold reads_back; intros Hok fuel rest Hfuel Hrest.
  - destruct fuel; [ simpl in Hfuel; lia | reflexivity ].
  - destruct fuel; [ destruct b; simpl in Hfuel; lia | destruct b; reflexivity ].
  - assert (Hn := print_nonempty (JNum x) Hok).
    destruct fuel; [ lia | ]. apply parse_value_number; assumption.
  - destruct fuel; [ simpl in Hfuel; lia | ].
    rewrite parse_value_S. simpl print. unfold quote.
    simpl app. simpl skip_ws. cbv iota. simpl Ascii.eqb. cbv iota.
    rewrite <- app_assoc. simpl app. rewrite parse_string_quote. reflexivity.
  - destruct fuel; [ simpl in Hfuel; lia | ].
    rewrite parse_value_S. simpl print. simpl in Hok.
    simpl app. simpl skip_ws. cbv iota. simpl Ascii.eqb. cbv iota.
    rewrite <- app_assoc. simpl app.
    destruct elems as [ | v elems ].
    + reflexivity.
    + assert (Hs : starts_value (commas (map print (v :: elems)) ++ "]"%char :: rest)).
      { simpl map. apply commas_starts_value; [ exact [] | ].
        apply print_starts_value. simpl in Hok.
        apply andb_prop in Hok as [Hok _]. exact Hok. }
      simpl in Hfuel. rewrite length_app in Hfuel. simpl in Hfuel.
      remember (commas (map print (v :: elems)) ++ "]"%char :: rest) as X eqn:HX.
      destruct Hs as (c & r & Heq & Hws & Hb & _).
      destruct X as [ | c0 r0 ]; [ discriminate | ].
      injection Heq as -> ->.
      simpl skip_ws. rewrite Hws, Hb, HX.
      rewrite parse_elements_print; try assumption;
        [ reflexivity | discriminate | simpl; lia ].
  - destruct fuel; [ simpl in Hfuel; lia | ].
    rewrite parse_value_S. rewrite print_obj in *. simpl in Hok.
    apply andb_prop in Hok as [Hnd Hok].
    simpl app. simpl skip_ws. cbv iota. simpl Ascii.eqb. cbv iota.
    rewrite <- app_assoc. simpl app.
    destruct members as [ | [k v] members ].
    + reflexivity.
    + simpl in Hfuel. rewrite length_app in Hfuel. simpl in Hfuel.
      remember (commas (map print_member ((k, v) :: members)) ++ "}"%char :: rest)
        as X eqn:HX.
      assert (Hs : exists r, X = dquote :: r).
      { subst X. simpl map. rewrite commas_cons. unfold print_member at 1, quote.
        simpl. eexists. reflexivity. }
      destruct Hs as (r & Heq).
      destruct X as [ | c0 r0 ]; [ discriminate | ].
      injection Heq as -> ->.
      simpl skip_ws. cbv iota. simpl Ascii.eqb. cbv iota. rewrite HX.
      rewrite parse_members_print; try assumption;
        [ | discriminate | simpl; lia ].
      rewrite set_all_nodup; [ reflexivity | exact Hnd | reflexivity ].
Qed.

Lemma parse_stringify v : json_ok v = true -> parse (stringify v) = Parsed v.
Proof.
  intro Hok. unfold parse, stringify.
  rewrite list_ascii_of_string_of_list_ascii.
  rewrite <- (app_nil_r (print v)) at 2.
  rewrite (print_reads_back v Hok); [ reflexivity | lia | exact I ].
Qed.

(** **** Fuel *)

Lemma skip_ws_length cs : (List.length (skip_ws cs) <= List.length cs)%nat.
Proof.
  induction cs as [ | c cs IH ]; simpl; [ lia | ].
  destruct (is_ws c); simpl; lia.
Qed.

Lemma parse_string_length cs acc s rest :
  parse_string cs acc = Parsed (s, rest) ->
  (List.length rest < List.length cs)%nat.
Proof.
  remember (List.length cs) as n eqn:Hn.
  revert cs acc Hn. induction n as [ n IH ] using lt_wf_ind.
  intros cs acc Hn. destruct cs as [ | c r ]; simpl; [ discriminate | ].
  simpl in Hn.
  destruct (Ascii.eqb c dquote).
  { intro H. injection H as _ <-. lia. }
  destruct (Ascii.eqb c backslash).
  - destruct r as [ | e r1 ]; [ discriminate | ]. simpl in Hn.
    destruct (simple_escape e).
    + intro H. apply (IH (List.length r1)) in H; [ lia | lia | reflexivity ].
    + destruct (Ascii.eqb e "u"); [ | discriminate ].
      destruct r1 as [ | h1 [ | h2 [ | h3 [ | h4 r2 ] ] ] ]; try discriminate.
      simpl in Hn.
      destruct (hex4 h1 h2 h3 h4) as [ k | ]; [ | discriminate ].
      destruct (k <? 256)%nat; [ | discriminate ].
      intro H. apply (IH (List.length r2)) in H; [ lia | lia | reflexivity ].
  - destruct (nat_of_ascii c <? 32)%nat; [ discriminate | ].
    intro H. apply (IH (List.length r)) in H; [ lia | lia | reflexivity ].
Qed.

Lemma span_num_length cs :
  (List.length (snd (span_num cs)) <= List.length cs)%nat.
Proof.
  induction cs as [ | c cs IH ]; simpl; [ lia | ].
  destruct (is_num_char c); [ | simpl; lia ].
  destruct (span_num cs). simpl in *. lia.
Qed.

Lemma strip_prefix_length word cs rest :
  strip_prefix word cs = Some rest ->
  (List.length rest + List.length word = List.length cs)%nat.
Proof.
  revert cs. induction word as [ | w word IH ]; intros cs; simpl.
  - intro H. injection H as <-. lia.
  - destruct cs as [ | c cs ]; [ discriminate | ].
    destruct (Ascii.eqb w c); [ | discriminate ].
    intro H. apply IH in H. simpl. lia.
Qed.

Lemma parse_literal_length word v cs v' rest :
  word <> ""%string ->
  parse_literal word v cs = Parsed (v', rest) ->
  (List.length rest < List.length cs)%nat.
Proof.
  unfold parse_literal. intros Hne.
  destruct (strip_prefix (list_ascii_of_string word) cs) as [ r | ] eqn:E;
    [ | discriminate ].
  intro H. injection H as _ <-. apply strip_prefix_length in E.
  destruct word; [ contradiction | ]. simpl in E. lia.
Qed.

Lemma parse_number_length c r v rest :
  (Ascii.eqb c "-" || is_digit c) = true ->
  parse_number (c :: r) = Parsed (v, rest) ->
  (List.length rest < List.length (c :: r))%nat.
Proof.
  intros Hc. unfold parse_number. simpl span_num.
  assert (Hnum : is_num_char c = true).
  { unfold is_num_char. apply orb_prop in Hc as [ Hc | Hc ]; rewrite Hc;
      rewrite ?orb_true_r; reflexivity. }
  rewrite Hnum. pose proof (span_num_length r) as Hlen.
  destruct (span_num r) as [ t rest' ]. simpl in Hlen.
  destruct (of_token (c :: t)); [ | discriminate ].
  intro H. injection H as _ <-. simpl. lia.
Qed.

Lemma fuel_enough_all fuel : fuel_enough fuel.
Proof.
  induction fuel as [ | fuel (IHv & IHe & IHm) ].
  { repeat split; intros; lia. }
  split; [ | split ].
  - (* a value *)
    intros cs Hfuel.
    rewrite (parse_value_S (S fuel)), (parse_value_S fuel).
    pose proof (skip_ws_length cs) as Hws.
    destruct (skip_ws cs) as [ | c r ]; [ split; [ reflexivity | discriminate ] | ].
    simpl in Hws.
    destruct (Ascii.eqb c "{").
    { pose proof (skip_ws_length r) as Hws'.
      destruct (skip_ws r) as [ | c' r' ];
        [ split; [ reflexivity | discriminate ] | ].
      simpl in Hws'.
      destruct (Ascii.eqb c' "}").
      - split; [ reflexivity | ]. intros v rest H. injection H as _ <-. lia.
      - destruct (IHm r []) as [ Heq Hlen ]; [ lia | ].
        split; [ exact Heq | ]. intros v rest H. apply Hlen in H. lia. }
    destruct (Ascii.eqb c "[").
    { pose proof (skip_ws_length r) as Hws'.
      destruct (skip_ws r) as [ | c' r' ];
        [ split; [ reflexivity | discriminate ] | ].
      simpl in Hws'.
      destruct (Ascii.eqb c' "]").
      - split; [ reflexivity | ]. intros v rest H. injection H as _ <-. lia.
      - destruct (IHe r []) as [ Heq Hlen ]; [ lia | ].
        split; [ exact Heq | ]. intros v rest H. apply Hlen in H. lia. }
    destruct (Ascii.eqb c dquote).
    { split; [ reflexivity | ].
      destruct (parse_string r []) as [ [s rest0] | | ] eqn:E; try discriminate.
      intros v rest H. injection H as _ <-.
      apply parse_string_length in E. lia. }
    destruct (Ascii.eqb c "n").
    { split; [ reflexivity | ]. intros v rest H.
      apply parse_literal_length in H; [ simpl in H; lia | discriminate ]. }
    destruct (Ascii.eqb c "t").
    { split; [ reflexivity | ]. intros v rest H.
      apply parse_literal_length in H; [ simpl in H; lia | discriminate ]. }
    destruct (Ascii.eqb c "f").
    { split; [ reflexivity | ]. intros v rest H.
      apply parse_literal_length in H; [ simpl in H; lia | discriminate ]. }
    destruct (Ascii.eqb c "-" || is_digit c) eqn:Hc.
    { split; [ reflexivity | ]. intros v rest H.
      apply parse_number_length in H; [ simpl in H; lia | exact Hc ]. }
    split; [ reflexivity | discriminate ].
  - (* the elements of an array *)
    intros cs acc Hfuel.
    rewrite (parse_elements_S (S fuel)), (parse_elements_S fuel).
    destruct (IHv cs) as [ Heq Hlen ]; [ lia | ]. rewrite Heq.
    destruct (parse_value fuel cs) as [ [v rest0] | | ];
      [ | split; [ reflexivity | discriminate ]
        | split; [ reflexivity | discriminate ] ].
    specialize (Hlen v rest0 eq_refl).
    pose proof (skip_ws_length rest0) as Hws.
    destruct (skip_ws rest0) as [ | c r ];
      [ split; [ reflexivity | discriminate ] | ].
    simpl in Hws.
    destruct (Ascii.eqb c ",").
    { destruct (IHe r (v :: acc)) as [ Heq' Hlen' ]; [ lia | ].
      split; [ exact Heq' | ]. intros v' rest H. apply Hlen' in H. lia. }
    destruct (Ascii.eqb c "]").
    { split; [ reflexivity | ]. intros v' rest H. injection H as _ <-. lia. }
    split; [ reflexivity | discriminate ].
  - (* the members of an object *)
    intros cs acc Hfuel.
    rewrite (parse_members_S (S fuel)), (parse_members_S fuel).
    pose proof (skip_ws_length cs) as Hws.
    destruct (skip_ws cs) as [ | c r ]; [ split; [ reflexivity | discriminate ] | ].
    simpl in Hws.
    destruct (Ascii.eqb c dquote); [ | split; [ reflexivity | discriminate ] ].
    destruct (parse_string r []) as [ [k rest0] | | ] eqn:E;
      [ | split; [ reflexivity | discriminate ]
        | split; [ reflexivity | discriminate ] ].
    apply parse_string_length in E.
    pose proof (skip_ws_length rest0) as Hws0.
    destruct (skip_ws rest0) as [ | c1 r1 ];
      [ split; [ reflexivity | discriminate ] | ].
    simpl in Hws0.
    destruct (Ascii.eqb c1 ":"); [ | split; [ reflexivity | discriminate ] ].
    destruct (IHv r1) as [ Heq Hlen ]; [ lia | ]. rewrite Heq.
    destruct (parse_value fuel r1) as [ [v rest1] | | ];
      [ | split; [ reflexivity | discriminate ]
        | split; [ reflexivity | discriminate ] ].
    specialize (Hlen v rest1 eq_refl).
    pose proof (skip_ws_length rest1) as Hws1.
    destruct (skip_ws rest1) as [ | c2 r2 ];
      [ split; [ reflexivity | discriminate ] | ].
    simpl in Hws1.
    destruct (Ascii.eqb c2 ",").
    { destruct (IHm r2 (obj_set k v acc)) as [ Heq' Hlen' ]; [ lia | ].
      split; [ exact Heq' | ]. intros v' rest H. apply Hlen' in H. lia. }
    destruct (Ascii.eqb c2 "}").
    { split; [ reflexivity | ]. intros v' rest H. injection H as _ <-. lia. }
    split; [ reflexivity | discriminate ].
Qed.

(** [JSON.parse] never stops for lack of fuel: with any larger fuel the
    parser gives the result it gives with the fuel [parse] hands it. *)
Lemma parse_value_fuel_enough cs extra :
  parse_value (extra + (2 * List.length cs + 2)) cs
  = parse_value (2 * List.length cs + 2) cs.
Proof.
  induction extra as [ | extra IH ]; [ reflexivity | ].
  rewrite <- IH. simpl Nat.add.
  destruct (fuel_enough_all (extra + (2 * List.length cs + 2))) as (Hv & _).
  apply Hv. lia.
Qed.

End JSONFacts.

(** * Facts about the Record Codec *)

Module CodecFacts.
Import JSON Codec JSONFacts.
Local Open Scope string_scope.

Lemma traverse_map {A B : Type} (f : B -> option A) (g : A -> B) l :
  (forall a, In a l -> f (g a) = Some a) -> traverse f (map g l) = Some l.
Proof.
  induction l as [ | a l IH ]; intro H; simpl.
  - reflexivity.
  - rewrite (H a (or_introl eq_refl)). simpl.
    rewrite IH; [ reflexivity | ]. intros b Hb. apply H. right. exact Hb.
Qed.

Lemma decode_encode_product p : decode_product (encode_product p) = Some p.
Proof. destruct p as [i n x dp c [d | ] [im | ]]; reflexivity. Qed.

Lemma decode_encode_cart c : decode_cart (encode_cart c) = Some c.
Proof.
  unfold decode_cart, encode_cart, as_array.
  apply traverse_map. intros p _. apply decode_encode_product.
Qed.

Lemma decode_encode_delivery d : decode_delivery (encode_delivery d) = Some d.
Proof. destruct d; reflexivity. Qed.

Lemma decode_encode_status s : decode_status (encode_status s) = Some s.
Proof. destruct s; reflexivity. Qed.

Lemma decode_encode_order o : decode_order (encode_order o) = Some o.
Proof.
  destruct o as [i d its tot st [dl | ]]; unfold decode_order, encode_order;
    cbn -[decode_cart encode_cart decode_status encode_status
          decode_delivery encode_delivery];
    rewrite decode_encode_cart;
    cbn -[decode_status encode_status decode_delivery encode_delivery];
    rewrite decode_encode_status;
    cbn -[decode_delivery encode_delivery];
    rewrite ?decode_encode_delivery; reflexivity.
Qed.

Lemma decode_encode_orders os :
  as_array decode_order (JArr (map encode_order os)) = Some os.
Proof. apply traverse_map. intros o _. apply decode_encode_order. Qed.

Lemma decode_encode_user u : decode_user (encode_user u) = Some u.
Proof.
  destruct u as [n e [pw | ] [c | ] [os | ]]; unfold decode_user, encode_user;
    cbn -[decode_cart encode_cart as_array encode_order decode_order];
    rewrite ?decode_encode_cart;
    cbn -[as_array encode_order decode_order];
    rewrite ?decode_encode_orders; reflexivity.
Qed.

Lemma decode_encode_db db : decode_db (encode_db db) = Some db.
Proof.
  unfold decode_db, encode_db.
  induction db as [ | [k u] db IH ]; cbn -[encode_user decode_user].
  - reflexivity.
  - rewrite decode_encode_user. cbn -[traverse encode_user decode_user].
    rewrite IH. reflexivity.
Qed.

(** The encodings are read back when the numbers are safe. *)
Lemma json_ok_product p : json_ok (encode_product p) = clean_product p.
Proof.
  destruct p as [i n x dp c [d | ] [im | ]]; unfold clean_product; simpl;
    rewrite ?andb_true_r; reflexivity.
Qed.

Lemma json_ok_cart c : json_ok (encode_cart c) = forallb clean_product c.
Proof.
  simpl. induction c as [ | p c IH ]; simpl.
  - reflexivity.
  - rewrite IH. f_equal. apply json_ok_product.
Qed.

Lemma json_ok_order o : json_ok (encode_order o) = clean_order o.
Proof.
  assert (Hc := json_ok_cart (Order.items o)).
  destruct o as [i d its tot st [dl | ]]; unfold clean_order, encode_order;
    cbn -[encode_cart] in *; rewrite Hc, ?andb_true_r; reflexivity.
Qed.


Lemma json_ok_orders os :
  json_ok (JArr (map encode_order os)) = forallb clean_order os.
Proof.
  simpl. induction os as [ | o os IH ]; simpl.
  - reflexivity.
  - rewrite IH. f_equal. apply json_ok_order.
Qed.

Lemma json_ok_user u : json_ok (encode_user u) = clean_user u.
Proof.
  assert (Hc := json_ok_cart (User.cart_or_empty u)).
  assert (Ho := json_ok_orders (User.orders_or_empty u)).
  destruct u as [n e [pw | ] [c | ] [os | ]];
    unfold clean_user, encode_user, User.cart_or_empty, User.orders_or_empty in *;
    cbn -[encode_cart encode_order] in *;
    rewrite ?Hc, ?Ho, ?andb_true_r; reflexivity.
Qed.

Lemma json_ok_db db :
  json_ok (encode_db db)
  = nodupb (map fst db) && forallb (fun kv => clean_user (snd kv)) db.
Proof.
  unfold encode_db. cbn [json_ok]. rewrite map_map. cbn [fst].
  f_equal. induction db as [ | [k u] db IH ]; cbn -[encode_user].
  - reflexivity.
  - rewrite IH, json_ok_user. reflexivity.
Qed.

Lemma stringify_nonempty v :
  json_ok v = true -> exists c s, stringify v = String c s.
Proof.
  intro H. destruct (print_starts_value v H) as (c & r & Heq & _).
  unfold stringify. rewrite Heq. simpl. eauto.
Qed.

End CodecFacts.

(** * Facts about the storage and the directory *)

Module AppFacts.
Import Number JSON Codec App App.STORAGE_KEYS JSONFacts CodecFacts.
Local Open Scope string_scope.

(** **** Association lists *)

Lemma obj_get_set_same {A : Type} k (v : A) o :
  obj_get k (obj_set k v o) = Some v.
Proof.
  induction o as [ | [k' v'] o IH ]; simpl.
  - rewrite String.eqb_refl. reflexivity.
  - destruct (String.eqb k k') eqn:E; simpl; rewrite E; [ reflexivity | exact IH ].
Qed.

Lemma obj_get_set_other {A : Type} k k' (v : A) o :
  String.eqb k' k = false -> obj_get k' (obj_set k v o) = obj_get k' o.
Proof.
  intro Hne. induction o as [ | [k0 v0] o IH ]; simpl.
  - rewrite Hne. reflexivity.
  - destruct (String.eqb k k0) eqn:E; simpl.
    + apply String.eqb_eq in E. subst k0. rewrite Hne. reflexivity.
    + rewrite IH. reflexivity.
Qed.

Lemma obj_get_remove_same {A : Type} k (o : list (string * A)) :
  obj_get k (obj_remove k o) = None.
Proof.
  unfold obj_remove. induction o as [ | [k' v'] o IH ]; simpl.
  - reflexivity.
  - destruct (String.eqb k k') eqn:E; simpl; [ exact IH | ].
    rewrite E. exact IH.
Qed.

Lemma obj_get_remove_other {A : Type} k k' (o : list (string * A)) :
  String.eqb k' k = false -> obj_get k' (obj_remove k o) = obj_get k' o.
Proof.
  intro Hne. unfold obj_remove. induction o as [ | [k0 v0] o IH ]; simpl.
  - reflexivity.
  - destruct (String.eqb k k0) eqn:E; simpl.
    + apply String.eqb_eq in E. subst k0. rewrite Hne. exact IH.
    + rewrite IH. reflexivity.
Qed.

Lemma map_fst_obj_set_present {A : Type} k (v : A) o :
  has_key k o = true -> map fst (obj_set k v o) = map fst o.
Proof.
  unfold has_key. induction o as [ | [k' v'] o IH ]; simpl; intro H.
  - discriminate.
  - destruct (String.eqb k k') eqn:E; simpl; [ reflexivity | ].
    rewrite IH; [ reflexivity | exact H ].
Qed.

Lemma nodupb_app_fresh ks k :
  nodupb ks = true -> existsb (String.eqb k) ks = false ->
  nodupb (ks ++ [k]) = true.
Proof.
  induction ks as [ | k' ks IH ]; simpl; intros Hnd Hk.
  - reflexivity.
  - apply andb_prop in Hnd as [Hk' Hnd].
    apply orb_false_elim in Hk as [Hkk' Hk].
    rewrite existsb_app. simpl. rewrite (IH Hnd Hk), andb_true_r.
    apply negb_true_iff in Hk'. rewrite Hk'. simpl.
    rewrite String.eqb_sym, Hkk'. reflexivity.
Qed.

Lemma nodupb_obj_set {A : Type} k (v : A) o :
  nodupb (map fst o) = true -> nodupb (map fst (obj_set k v o)) = true.
Proof.
  intro Hnd. destruct (has_key k o) eqn:Hk.
  - rewrite map_fst_obj_set_present; assumption.
  - rewrite obj_set_fresh by exact Hk. rewrite map_app. simpl.
    apply nodupb_app_fresh; assumption.
Qed.

Lemma forallb_obj_set {A : Type} (P : A -> bool) k (v : A) o :
  forallb (fun kv => P (snd kv)) o = true -> P v = true ->
  forallb (fun kv => P (snd kv)) (obj_set k v o) = true.
Proof.
  intros Ho Hv. induction o as [ | [k' v'] o IH ]; simpl in *.
  - rewrite Hv. reflexivity.
  - apply andb_prop in Ho as [H1 H2].
    destruct (String.eqb k k'); simpl.
    + rewrite Hv, H2. reflexivity.
    + rewrite H1, (IH H2). reflexivity.
Qed.

Lemma forallb_obj_get {A : Type} (P : A -> bool) k (v : A) o :
  forallb (fun kv => P (snd kv)) o = true -> obj_get k o = Some v ->
  P v = true.
Proof.
  intros Ho Hget. induction o as [ | [k' v'] o IH ]; simpl in *.
  - discriminate.
  - apply andb_prop in Ho as [H1 H2].
    destruct (String.eqb k k').
    + injection Hget as <-. exact H1.
    + apply IH; assumption.
Qed.


(** **** The keys of a parsed object are pairwise distinct *)

Lemma parse_elements_array fuel cs acc v rest :
  parse_elements fuel cs acc = Parsed (v, rest) -> exists l, v = JArr l.
Proof.
  revert cs acc. induction fuel as [ | fuel IH ]; intros cs acc;
    [ discriminate | ].
  rewrite parse_elements_S.
  destruct (parse_value fuel cs) as [ [v0 rest0] | | ]; try discriminate.
  destruct (skip_ws rest0) as [ | c r ]; [ discriminate | ].
  destruct (Ascii.eqb c ","); [ apply IH | ].
  destruct (Ascii.eqb c "]"); [ | discriminate ].
  intro H. injection H as <- _. eauto.
Qed.

Lemma parse_members_nodup fuel cs acc v rest :
  nodupb (map fst acc) = true ->
  parse_members fuel cs acc = Parsed (v, rest) ->
  exists m, v = JObj m /\ nodupb (map fst m) = true.
Proof.
  revert cs acc. induction fuel as [ | fuel IH ]; intros cs acc Hacc;
    [ discriminate | ].
  rewrite parse_members_S.
  destruct (skip_ws cs) as [ | c r ]; [ discriminate | ].
  destruct (Ascii.eqb c dquote); [ | discriminate ].
  destruct (parse_string r []) as [ [k rest0] | | ]; try discriminate.
  destruct (skip_ws rest0) as [ | c1 r1 ]; [ discriminate | ].
  destruct (Ascii.eqb c1 ":"); [ | discriminate ].
  destruct (parse_value fuel r1) as [ [v1 rest1] | | ]; try discriminate.
  destruct (skip_ws rest1) as [ | c2 r2 ]; [ discriminate | ].
  assert (Hset := nodupb_obj_set k v1 acc Hacc).
  destruct (Ascii.eqb c2 ","); [ apply IH; exact Hset | ].
  destruct (Ascii.eqb c2 "}"); [ | discriminate ].
  intro H. injection H as <- _. eauto.
Qed.

Lemma parse_literal_value word v cs v' rest :
  parse_literal word v cs = Parsed (v', rest) -> v' = v.
Proof.
  unfold parse_literal.
  destruct (strip_prefix (list_ascii_of_string word) cs); [ | discriminate ].
  intro H. injection H as <- _. reflexivity.
Qed.

Lemma parse_value_object_nodup fuel cs m rest :
  parse_value fuel cs = Parsed (JObj m, rest) -> nodupb (map fst m) = true.
Proof.
  destruct fuel as [ | fuel ]; [ discriminate | ].
  rewrite parse_value_S.
  destruct (skip_ws cs) as [ | c r ]; [ discriminate | ].
  destruct (Ascii.eqb c "{").
  { destruct (skip_ws r) as [ | c' r' ]; [ discriminate | ].
    destruct (Ascii.eqb c' "}").
    - intro H. injection H as <- _. reflexivity.
    - intro H. apply parse_members_nodup in H as (m' & Heq & Hnd);
        [ | reflexivity ].
      injection Heq as <-. exact Hnd. }
  destruct (Ascii.eqb c "[").
  { destruct (skip_ws r) as [ | c' r' ]; [ discriminate | ].
    destruct (Ascii.eqb c' "]"); [ discriminate | ].
    intro H. apply parse_elements_array in H as (l & Heq). discriminate. }
  destruct (Ascii.eqb c dquote).
  { destruct (parse_string r []) as [ [s rest0] | | ]; discriminate. }
  destruct (Ascii.eqb c "n").
  { intro H. apply parse_literal_value in H. discriminate. }
  destruct (Ascii.eqb c "t").
  { intro H. apply parse_literal_value in H. discriminate. }
  destruct (Ascii.eqb c "f").
  { intro H. apply parse_literal_value in H. discriminate. }
  destruct (Ascii.eqb c "-" || is_digit c); [ | discriminate ].
  unfold parse_number. destruct (span_num (c :: r)) as [ tok rest0 ].
  destruct (of_token tok); discriminate.
Qed.

Lemma parse_object_nodup text m :
  parse text = Parsed (JObj m) -> nodupb (map fst m) = true.
Proof.
  unfold parse.
  destruct (parse_value _ _) as [ [v rest] | | ] eqn:E; try discriminate.
  destruct (is_nil (skip_ws rest)); [ | discriminate ].
  intro H. injection H as ->. exact (parse_value_object_nodup _ _ _ _ E).
Qed.

Lemma decode_db_keys m db :
  decode_db (JObj m) = Some db -> map fst db = map fst m.
Proof.
  cbn [decode_db]. revert db. induction m as [ | [k j] m IH ]; intro db.
  - intro H. injection H as <-. reflexivity.
  - cbn -[decode_user]. destruct (decode_user j) as [ u | ]; [ | discriminate ].
    cbn -[decode_user].
    destruct (traverse _ m) as [ db0 | ]; [ | discriminate ].
    intro H. injection H as <-. cbn. rewrite (IH db0 eq_refl). reflexivity.
Qed.

(** A directory that [load_db] returns has pairwise distinct keys. *)
Lemma load_db_nodup w db :
  load_db w = Returns db w -> nodupb (map fst db) = true.
Proof.
  unfold load_db, mbind, getItem, ret, JSON_parse.
  destruct (obj_get USERS_DB (localStorage w)) as [ [ | c text ] | ].
  - intro H. injection H as <-. reflexivity.
  - destruct (parse (String c text)) as [ j | | ] eqn:Hp; try discriminate.
    destruct (decode_db j) as [ db0 | ] eqn:Hd; try discriminate.
    intro H. injection H as <-.
    destruct j as [ | | | | | m ]; try discriminate.
    rewrite (decode_db_keys m db0 Hd). exact (parse_object_nodup _ _ Hp).
  - intro H. injection H as <-. reflexivity.
Qed.

(** **** The directory object *)

Lemma inherited_proto k : inherited k = false -> String.eqb k "__proto__" = false.
Proof.
  unfold inherited, Object_prototype_keys. cbn [existsb]. intro H.
  repeat (apply orb_false_elim in H as [? H]); assumption.
Qed.

Lemma ok_key_inherited k :
  ok_key k = true -> inherited k = false /\ inherited (toLowerCase k) = false.
Proof.
  unfold ok_key. intro H. apply andb_prop in H as [H1 H2].
  apply negb_true_iff in H1, H2. auto.
Qed.

Lemma inherited_not_address k : inherited k = true -> is_address k = false.
Proof.
  unfold inherited, Object_prototype_keys. cbn [existsb]. intro H.
  repeat (apply orb_prop in H as [ H | H ];
          [ apply String.eqb_eq in H; subst k; reflexivity | ]).
  discriminate.
Qed.

Lemma lower_char_at c : Ascii.eqb "@" (lower_char c) = Ascii.eqb "@" c.
Proof. destruct c as [[|] [|] [|] [|] [|] [|] [|] [|]]; reflexivity. Qed.

Lemma is_address_toLowerCase k : is_address (toLowerCase k) = is_address k.
Proof.
  unfold is_address.
  induction k as [ | c k IH ]; cbn [toLowerCase list_ascii_of_string existsb].
  - reflexivity.
  - rewrite lower_char_at, IH. reflexivity.
Qed.

(** An email address names no member of [Object.prototype]. *)
Lemma address_ok_key k : is_address k = true -> ok_key k = true.
Proof.
  intro H. unfold ok_key.
  destruct (inherited k) eqn:E1.
  { apply inherited_not_address in E1. congruence. }
  destruct (inherited (toLowerCase k)) eqn:E2.
  { apply inherited_not_address in E2. rewrite is_address_toLowerCase in E2.
    congruence. }
  reflexivity.
Qed.

Lemma put_user_set db k u :
  inherited k = false -> put_user db k u = obj_set k u db.
Proof.
  intro H. unfold put_user. rewrite (inherited_proto k H).
  destruct (obj_get k db); reflexivity.
Qed.

Lemma wf_user_clean u : wf_user u = true -> clean_user u = true.
Proof. unfold wf_user. intro H. apply andb_prop in H as [H _]. exact H. Qed.

Lemma wf_user_key u : wf_user u = true -> inherited (User.email u) = false.
Proof.
  unfold wf_user. intro H. apply andb_prop in H as [_ H].
  apply ok_key_inherited in H as [H _]. exact H.
Qed.

Lemma wf_dir_obj_set db k u :
  wf_dir db = true -> wf_user u = true -> wf_dir (obj_set k u db) = true.
Proof.
  unfold wf_dir, wf_accounts. intros H Hu. apply andb_prop in H as [Hnd Hall].
  rewrite nodupb_obj_set by exact Hnd.
  rewrite (forallb_obj_set wf_user) by assumption. reflexivity.
Qed.

Lemma wf_dir_get db k u :
  wf_dir db = true -> obj_get k db = Some u -> wf_user u = true.
Proof.
  unfold wf_dir, wf_accounts. intros H Hget. apply andb_prop in H as [_ Hall].
  exact (forallb_obj_get wf_user k u db Hall Hget).
Qed.

Lemma wf_dir_json_ok db : wf_dir db = true -> json_ok (encode_db db) = true.
Proof.
  unfold wf_dir, wf_accounts. intro H. apply andb_prop in H as [Hnd Hall].
  rewrite json_ok_db, Hnd. simpl.
  rewrite forallb_forall in *. intros kv Hin.
  apply wf_user_clean. apply Hall. exact Hin.
Qed.

Lemma load_db_wf_dir w db :
  load_db w = Returns db w -> wf_accounts db = true -> wf_dir db = true.
Proof.
  intros Hload Hall. unfold wf_dir.
  rewrite (load_db_nodup w db Hload), Hall. reflexivity.
Qed.

(** **** Reading a blob back *)

Lemma read_depends {A : Type} (decode : json -> option A) k w w1 :
  obj_get k (localStorage w1) = obj_get k (localStorage w) ->
  read decode k w1 = read decode k w.
Proof. unfold read. intros ->. reflexivity. Qed.

Lemma read_stringify {A : Type} (decode : json -> option A) k w j a :
  obj_get k (localStorage w) = Some (stringify j) ->
  json_ok j = true -> decode j = Some a ->
  read decode k w = Value a.
Proof.
  unfold read. intros -> Hok Hdec.
  rewrite (parse_stringify j Hok), Hdec. reflexivity.
Qed.

Lemma JSON_parse_stringify {A : Type} (decode : json -> option A) j a w :
  json_ok j = true -> decode j = Some a ->
  JSON_parse decode (stringify j) w = Returns a w.
Proof.
  unfold JSON_parse. intros Hok Hdec.
  rewrite (parse_stringify j Hok), Hdec. reflexivity.
Qed.

(** [load_db] reads the world only through the [USERS_DB] blob. *)
Lemma load_db_depends w w1 d :
  obj_get USERS_DB (localStorage w1) = obj_get USERS_DB (localStorage w) ->
  load_db w = Returns d w -> load_db w1 = Returns d w1.
Proof.
  unfold load_db, mbind, getItem, ret, JSON_parse. intros ->.
  destruct (obj_get USERS_DB (localStorage w)) as [ [ | c text ] | ].
  - intro H. injection H as <-. reflexivity.
  - destruct (parse (String c text)) as [ j | | ]; try discriminate.
    destruct (decode_db j); try discriminate.
    intro H. injection H as <-. reflexivity.
  - intro H. injection H as <-. reflexivity.
Qed.

Lemma load_db_stringify w db :
  obj_get USERS_DB (localStorage w) = Some (stringify (encode_db db)) ->
  wf_dir db = true -> load_db w = Returns db w.
Proof.
  intros Hget Hwf. apply wf_dir_json_ok in Hwf.
  destruct (stringify_nonempty _ Hwf) as (c & text & Heq).
  unfold load_db, mbind, getItem. rewrite Hget, Heq, <- Heq.
  apply JSON_parse_stringify; [ exact Hwf | apply decode_encode_db ].
Qed.

(** **** [persistUser] *)

Lemma persistUser_returns u w db :
  load_db w = Returns db w ->
  persistUser u w = Returns tt (persisted u db w).
Proof.
  intro Hload. unfold persistUser, mbind, setUser, update, setItem.
  cbn [react localStorage].
  rewrite (load_db_depends w _ db); [ reflexivity | | exact Hload ].
  cbn [localStorage]. apply obj_get_set_other. reflexivity.
Qed.

Lemma persisted_session u db w :
  clean_user u = true -> session (persisted u db w) = Value u.
Proof.
  intro Hu. unfold session.
  apply (read_stringify decode_user SESSION _ (encode_user u)).
  - unfold persisted. cbn [localStorage].
    rewrite obj_get_set_other by reflexivity. apply obj_get_set_same.
  - rewrite json_ok_user. exact Hu.
  - apply decode_encode_user.
Qed.

Lemma persisted_directory u db w :
  wf_dir db = true -> wf_user u = true ->
  directory (persisted u db w) = Value (obj_set (User.email u) u db).
Proof.
  intros Hdb Hu. unfold directory.
  rewrite <- (put_user_set db _ u (wf_user_key u Hu)).
  apply (read_stringify decode_db USERS_DB _
           (encode_db (put_user db (User.email u) u))).
  - unfold persisted. cbn [localStorage]. apply obj_get_set_same.
  - apply wf_dir_json_ok. rewrite put_user_set by (apply wf_user_key; exact Hu).
    apply wf_dir_obj_set; assumption.
  - apply decode_encode_db.
Qed.

End AppFacts.

(** * Facts about the lookup *)

Module HandlerFacts.
Import JSON Codec App App.STORAGE_KEYS JSONFacts CodecFacts AppFacts.
Local Open Scope string_scope.

Lemma find_user_found db e w u :
  find_user db e w = Returns (Some u) w -> exists k, obj_get k db = Some u.
Proof.
  unfold find_user, mbind, get_user, ret, ill_typed.
  destruct (obj_get e db) as [ u0 | ] eqn:E1.
  - intro H. injection H as <-. eauto.
  - destruct (inherited e); [ discriminate | ].
    destruct (obj_get (toLowerCase e) db) as [ u0 | ] eqn:E2.
    + intro H. injection H as <-. eauto.
    + destruct (inherited (toLowerCase e)); discriminate.
Qed.

Lemma find_user_returns db e w :
  ok_key e = true ->
  find_user db e w
  = Returns match obj_get e db with
            | Some u => Some u
            | None => obj_get (toLowerCase e) db
            end w.
Proof.
  intro H. apply ok_key_inherited in H as [H1 H2].
  unfold find_user, mbind, get_user, ret.
  destruct (obj_get e db); [ reflexivity | ].
  rewrite H1. destruct (obj_get (toLowerCase e) db); [ reflexivity | ].
  rewrite H2. reflexivity.
Qed.

Lemma lower_char_idem c : lower_char (lower_char c) = lower_char c.
Proof. destruct c as [[|] [|] [|] [|] [|] [|] [|] [|]]; reflexivity. Qed.

Lemma toLowerCase_idem s : toLowerCase (toLowerCase s) = toLowerCase s.
Proof.
  induction s as [ | c s IH ]; simpl; [ | rewrite lower_char_idem, IH ];
    reflexivity.
Qed.

Lemma obj_get_has_key {A : Type} k (o : list (string * A)) v :
  obj_get k o = Some v -> In k (map fst o).
Proof.
  induction o as [ | [k' v'] o IH ]; simpl; [ discriminate | ].
  destruct (String.eqb k k') eqn:E.
  - apply String.eqb_eq in E. auto.
  - auto.
Qed.

(** No key of the directory is the email up to letter case: both reads of
    [find_user] miss. *)
Lemma find_user_misses db e w :
  ok_key e = true ->
  (forall k, In k (map fst db) -> toLowerCase k <> toLowerCase e) ->
  find_user db e w = Returns None w.
Proof.
  intros Hok Hno. rewrite find_user_returns by exact Hok.
  destruct (obj_get e db) as [ u | ] eqn:E1.
  - exfalso. apply (Hno e); [ | reflexivity ].
    exact (obj_get_has_key _ _ _ E1).
  - destruct (obj_get (toLowerCase e) db) as [ u | ] eqn:E2; [ | reflexivity ].
    exfalso. apply (Hno (toLowerCase e)); [ | apply toLowerCase_idem ].
    exact (obj_get_has_key _ _ _ E2).
Qed.

Lemma parse_empty : parse "" = Malformed.
Proof. reflexivity. Qed.

(** A blob that [read] decodes is what [JSON_parse] returns. *)
Lemma read_value {A : Type} (decode : json -> option A) k w a :
  read decode k w = Value a ->
  exists c text,
    obj_get k (localStorage w) = Some (String c text)
    /\ forall w1, JSON_parse decode (String c text) w1 = Returns a w1.
Proof.
  unfold read, JSON_parse.
  destruct (obj_get k (localStorage w)) as [ text | ]; [ | discriminate ].
  destruct text as [ | c text ]; [ rewrite parse_empty; discriminate | ].
  destruct (parse (String c text)) as [ j | | ] eqn:Hp; try discriminate.
  destruct (decode j) as [ a0 | ] eqn:Hd; try discriminate.
  intro H. injection H as <-. exists c, text. split; [ reflexivity | ].
  intro w1. rewrite Hp, Hd. reflexivity.
Qed.

End HandlerFacts.

(** * The claims of the specification *)

Module Claims.
Import JSON Codec App App.STORAGE_KEYS JSONFacts CodecFacts AppFacts HandlerFacts.
Local Open Scope string_scope.

(** **** What each handler returns when the directory can be loaded *)

Section DirectoryLoads.

Variables (w : World) (db : Directory).
Hypothesis Hload : load_db w = Returns db w.

Lemma handleLogin_returns s userFromAuth found :
  find_user db (User.email userFromAuth) w = Returns found w ->
  let freshUser := match found with Some u => u | None => userFromAuth end in
  let mergedCart := (User.cart_or_empty freshUser ++ cartItems s)%list in
  let w1 := persisted (User.with_cart freshUser mergedCart) db w in
  handleLogin s userFromAuth w
  = Returns tt
      (mkWorld
         (mkState (isCatalogOpen (react w1)) (isCartOpen (react w1)) false
            (isProfileOpen (react w1)) (isCheckoutOpen (react w1))
            mergedCart (user (react w1)))
         (obj_remove GUEST_CART (localStorage w1))).
Proof.
  intros Hfind. unfold handleLogin, mbind.
  rewrite Hload, Hfind. rewrite (persistUser_returns _ w db Hload).
  reflexivity.
Qed.

Lemma addToCart_returns s product u :
  user s = Some u ->
  let newCart := (cartItems s ++ [product])%list in
  addToCart s product w
  = Returns tt
      (let w1 := persisted (User.with_cart u newCart) db
                   (mkWorld (mkState (isCatalogOpen (react w)) (isCartOpen (react w))
                               (isAuthOpen (react w)) (isProfileOpen (react w))
                               (isCheckoutOpen (react w)) newCart (user (react w)))
                            (localStorage w)) in
       mkWorld (mkState (isCatalogOpen (react w1)) true (isAuthOpen (react w1))
                  (isProfileOpen (react w1)) (isCheckoutOpen (react w1))
                  (cartItems (react w1)) (user (react w1)))
         (localStorage w1)).
Proof.
  intros Hu. unfold addToCart, mbind, setCartItems, update. rewrite Hu.
  rewrite (persistUser_returns _ _ db); [ reflexivity | ].
  apply (load_db_depends w); [ reflexivity | exact Hload ].
Qed.

Lemma removeFromCart_returns s id u :
  user s = Some u ->
  let newCart :=
    filter (fun item => negb (String.eqb (Product.id item) id)) (cartItems s) in
  removeFromCart s id w
  = Returns tt
      (persisted (User.with_cart u newCart) db
         (mkWorld (mkState (isCatalogOpen (react w)) (isCartOpen (react w))
                     (isAuthOpen (react w)) (isProfileOpen (react w))
                     (isCheckoutOpen (react w)) newCart (user (react w)))
                  (localStorage w))).
Proof.
  intros Hu. unfold removeFromCart, mbind, setCartItems, update. rewrite Hu.
  rewrite (persistUser_returns _ _ db); [ reflexivity | ].
  apply (load_db_depends w); [ reflexivity | exact Hload ].
Qed.

Lemma processOrder_returns s randomId now deliveryDetails u :
  user s = Some u -> cartItems s <> [] ->
  let order := newOrder s randomId now deliveryDetails in
  let w1 := persisted
              (User.with_orders_cart u (User.orders_or_empty u ++ [order])%list [])
              db w in
  processOrder s randomId now deliveryDetails w
  = Returns tt
      (mkWorld (mkState (isCatalogOpen (react w1)) (isCartOpen (react w1))
                  (isAuthOpen (react w1)) true false [] (user (react w1)))
         (localStorage w1)).
Proof.
  intros Hu Hne. unfold processOrder.
  destruct (cartItems s) as [ | p c ] eqn:Hc; [ contradiction | ].
  cbn [List.length Nat.eqb]. unfold mbind. rewrite Hu.
  rewrite (persistUser_returns _ w db Hload). reflexivity.
Qed.

End DirectoryLoads.

Lemma forallb_app_true {A : Type} (P : A -> bool) l1 l2 :
  forallb P l1 = true -> forallb P l2 = true -> forallb P (l1 ++ l2) = true.
Proof. intros H1 H2. rewrite forallb_app, H1, H2. reflexivity. Qed.

Lemma wf_user_with_cart u c :
  wf_user u = true -> forallb clean_product c = true ->
  wf_user (User.with_cart u c) = true.
Proof.
  unfold wf_user, clean_user. intros H Hc.
  apply andb_prop in H as [H Hk]. apply andb_prop in H as [_ Ho].
  change (User.cart_or_empty (User.with_cart u c)) with c.
  change (User.orders_or_empty (User.with_cart u c)) with (User.orders_or_empty u).
  change (User.email (User.with_cart u c)) with (User.email u).
  rewrite Hc, Ho, Hk. reflexivity.
Qed.

Lemma wf_user_cart u :
  wf_user u = true -> forallb clean_product (User.cart_or_empty u) = true.
Proof.
  unfold wf_user, clean_user. intro H.
  apply andb_prop in H as [H _]. apply andb_prop in H as [H _]. exact H.
Qed.

(** **** Session and Directory after [persistUser] *)

Lemma persisted_in_sync u db w w' :
  wf_dir db = true -> wf_user u = true ->
  obj_get SESSION (localStorage w')
  = obj_get SESSION (localStorage (persisted u db w)) ->
  obj_get USERS_DB (localStorage w')
  = obj_get USERS_DB (localStorage (persisted u db w)) ->
  session w' = Value u
  /\ directory w' = Value (obj_set (User.email u) u db)
  /\ load_db w' = Returns (obj_set (User.email u) u db) w'
  /\ wf_dir (obj_set (User.email u) u db) = true.
Proof.
  intros Hdb Hu Hs Hd.
  assert (Hwf : wf_dir (obj_set (User.email u) u db) = true)
    by (apply wf_dir_obj_set; assumption).
  split; [ | split; [ | split; [ | exact Hwf ] ] ].
  - unfold session. rewrite (read_depends _ _ _ _ Hs).
    apply persisted_session. apply wf_user_clean. exact Hu.
  - unfold directory. rewrite (read_depends _ _ _ _ Hd).
    apply persisted_directory; assumption.
  - apply load_db_stringify; [ | exact Hwf ].
    rewrite Hd. unfold persisted. cbn [localStorage].
    rewrite obj_get_set_same, put_user_set by (apply wf_user_key; exact Hu).
    reflexivity.
Qed.

Lemma wf_user_orders u :
  wf_user u = true -> forallb clean_order (User.orders_or_empty u) = true.
Proof.
  unfold wf_user, clean_user. intro H.
  apply andb_prop in H as [H _]. apply andb_prop in H as [_ H]. exact H.
Qed.

Lemma wf_user_with_order u s randomId now deliveryDetails :
  wf_user u = true ->
  forallb clean_product (cartItems s) = true ->
  Number.json_safe (cart_total (cartItems s)) = true ->
  wf_user
    (User.with_orders_cart u
       (User.orders_or_empty u ++ [newOrder s randomId now deliveryDetails]) [])
  = true.
Proof.
  intros Hu Hc Ht. assert (Ho := wf_user_orders u Hu).
  unfold wf_user in *. apply andb_prop in Hu as [_ Hk].
  unfold clean_user.
  change (User.cart_or_empty (User.with_orders_cart u ?o [])) with (@nil Product.t).
  change (User.orders_or_empty (User.with_orders_cart u ?o [])) with o.
  change (User.email (User.with_orders_cart u ?o [])) with (User.email u).
  rewrite Hk, forallb_app, Ho. cbn [forallb]. unfold clean_order.
  cbn [newOrder Order.items Order.total]. rewrite Hc, Ht. reflexivity.
Qed.

Lemma login_user_wf db userFromAuth found w (G : list Product.t) :
  find_user db (User.email userFromAuth) w = Returns found w ->
  wf_dir db = true -> wf_user userFromAuth = true ->
  forallb clean_product G = true ->
  let freshUser := match found with Some u => u | None => userFromAuth end in
  wf_user (User.with_cart freshUser (User.cart_or_empty freshUser ++ G)) = true.
Proof.
  intros Hfind Hdb Hauth HG freshUser.
  assert (Hfresh : wf_user freshUser = true).
  { subst freshUser. destruct found as [ u | ]; [ | exact Hauth ].
    destruct (find_user_found _ _ _ _ Hfind) as (k & Hk).
    exact (wf_dir_get db k u Hdb Hk). }
  apply wf_user_with_cart; [ exact Hfresh | ].
  apply forallb_app_true; [ apply wf_user_cart; exact Hfresh | exact HG ].
Qed.

(** C1. Login merges the carts: the cart after login is the account's
    stored cart followed by the live cart of before, nothing dropped and
    nothing deduplicated.  The record that login leaves in the user cell, in
    the Session snapshot and in the Directory entry of the account is one
    and the same; its [cart] field is that merged list and its other fields
    are those of the account; and the guest cart blob is gone. *)
Theorem login_merges_account_cart_then_guest_cart
  (w : World) (db : Directory) (userFromAuth : User.t) (found : option User.t) :
  load_db w = Returns db w ->
  find_user db (User.email userFromAuth) w = Returns found w ->
  wf_accounts db = true ->
  wf_user userFromAuth = true ->
  forallb clean_product (cartItems (react w)) = true ->
  let freshUser := match found with Some u => u | None => userFromAuth end in
  let A := User.cart_or_empty freshUser in
  let G := cartItems (react w) in
  exists w' u' db',
    dispatch (fun s => handleLogin s userFromAuth) w = Returns tt w'
    /\ cartItems (react w') = (A ++ G)%list
    /\ List.length (cartItems (react w')) = (List.length A + List.length G)%nat
    /\ user (react w') = Some u'
    /\ session w' = Value u'
    /\ directory w' = Value db'
    /\ obj_get (User.email freshUser) db' = Some u'
    /\ User.cart u' = Some (A ++ G)%list
    /\ User.name u' = User.name freshUser
    /\ User.email u' = User.email freshUser
    /\ User.password u' = User.password freshUser
    /\ User.orders u' = User.orders freshUser
    /\ guest_cart w' = Absent.
Proof.
  intros Hload Hfind Hacc Hauth HG freshUser A G.
  assert (Hdb := load_db_wf_dir w db Hload Hacc).
  assert (Hnew := login_user_wf db userFromAuth found w G Hfind Hdb Hauth HG).
  cbv zeta in Hnew. fold freshUser in Hnew. fold A in Hnew.
  eexists.
  exists (User.with_cart freshUser (A ++ G)),
    (obj_set (User.email freshUser) (User.with_cart freshUser (A ++ G)) db).
  unfold dispatch.
  rewrite (handleLogin_returns w db Hload _ _ found Hfind).
  fold freshUser. fold A. fold G.
  destruct (persisted_in_sync (User.with_cart freshUser (A ++ G)) db w
              (mkWorld (react w)
                 (obj_remove GUEST_CART
                    (localStorage
                       (persisted (User.with_cart freshUser (A ++ G)) db w))))
              Hdb Hnew) as (Hs & Hd & _ & _).
  { cbn [localStorage]. apply obj_get_remove_other. reflexivity. }
  { cbn [localStorage]. apply obj_get_remove_other. reflexivity. }
  split; [ reflexivity | ]. split; [ reflexivity | ].
  split; [ apply length_app | ]. split; [ reflexivity | ].
  split; [ exact Hs | ]. split; [ exact Hd | ].
  split; [ apply obj_get_set_same | ].
  split; [ reflexivity | ]. split; [ reflexivity | ].
  split; [ reflexivity | ]. split; [ reflexivity | ].
  split; [ reflexivity | ].
  unfold guest_cart, read. cbn [localStorage].
  rewrite obj_get_remove_same. reflexivity.
Qed.

Lemma login_merge_example :
  exists w' u' db',
    dispatch (fun s => handleLogin s Examples.alice_auth) Examples.guest_world
    = Returns tt w'
    /\ cartItems (react w')
       = ([Examples.p1; Examples.p2] ++ [Examples.p2; Examples.p3])%list
    /\ List.length (cartItems (react w')) = (2 + 2)%nat
    /\ user (react w') = Some u'
    /\ session w' = Value u'
    /\ directory w' = Value db'
    /\ obj_get "alice@x.com" db' = Some u'
    /\ User.cart u'
       = Some [Examples.p1; Examples.p2; Examples.p2; Examples.p3]
    /\ User.name u' = "Alice"
    /\ User.email u' = "alice@x.com"
    /\ User.password u' = None
    /\ User.orders u' = Some []
    /\ guest_cart w' = Absent.
Proof.
  apply (login_merges_account_cart_then_guest_cart
           Examples.guest_world
           [("alice@x.com", Examples.alice); ("bob@x.com", Examples.bob)]
           Examples.alice_auth (Some Examples.alice));
    vm_compute; reflexivity.
Defined.


(** C2. Self-healing at startup: a Session snapshot whose email matches no
    key of the Directory, exactly or up to letter case, is written into
    the Directory under its own email and activated; the live cart is the
    cart of the snapshot. *)
Theorem self_healing_repairs_missing_entry
  (w : World) (db : Directory) (sessionUser : User.t) :
  session w = Value sessionUser ->
  load_db w = Returns db w ->
  wf_accounts db = true ->
  wf_user sessionUser = true ->
  (forall k, In k (map fst db) ->
             toLowerCase k <> toLowerCase (User.email sessionUser)) ->
  exists w' db',
    initialize w = Returns tt w'
    /\ directory w' = Value db'
    /\ obj_get (User.email sessionUser) db' = Some sessionUser
    /\ user (react w') = Some sessionUser
    /\ cartItems (react w') = User.cart_or_empty sessionUser
    /\ session w' = Value sessionUser.
Proof.
  intros Hs Hload Hacc Hu Hno.
  assert (Hdb := load_db_wf_dir w db Hload Hacc).
  destruct (read_value decode_user SESSION w sessionUser Hs)
    as (c & text & Hblob & Hparse).
  assert (Hkey : ok_key (User.email sessionUser) = true).
  { unfold wf_user in Hu. apply andb_prop in Hu as [_ Hu]. exact Hu. }
  exists (mkWorld
            (mkState (isCatalogOpen (react w)) (isCartOpen (react w))
               (isAuthOpen (react w)) (isProfileOpen (react w))
               (isCheckoutOpen (react w)) (User.cart_or_empty sessionUser)
               (Some sessionUser))
            (obj_set USERS_DB
               (stringify (encode_db
                  (put_user db (User.email sessionUser) sessionUser)))
               (localStorage w))).
  exists (obj_set (User.email sessionUser) sessionUser db).
  split.
  - unfold initialize, mbind, getItem. rewrite Hblob.
    unfold try_catch, mbind. rewrite Hparse, Hload.
    rewrite (find_user_misses db _ w Hkey Hno). reflexivity.
  - repeat split.
    + unfold directory.
      rewrite <- (put_user_set db _ sessionUser (wf_user_key _ Hu)).
      apply (read_stringify decode_db USERS_DB _
               (encode_db (put_user db (User.email sessionUser) sessionUser))).
      * cbn [localStorage]. apply obj_get_set_same.
      * apply wf_dir_json_ok.
        rewrite put_user_set by (apply wf_user_key; exact Hu).
        apply wf_dir_obj_set; assumption.
      * apply decode_encode_db.
    + apply obj_get_set_same.
    + rewrite <- Hs. unfold session. apply read_depends.
      cbn [localStorage]. apply obj_get_set_other. reflexivity.
Qed.

Lemma self_healing_example :
  exists w' db',
    initialize Examples.healing_world = Returns tt w'
    /\ directory w' = Value db'
    /\ obj_get "alice@x.com" db' = Some Examples.alice
    /\ user (react w') = Some Examples.alice
    /\ cartItems (react w') = [Examples.p1; Examples.p2]
    /\ session w' = Value Examples.alice.
Proof.
  apply (self_healing_repairs_missing_entry Examples.healing_world
           [("bob@x.com", Examples.bob)] Examples.alice);
    try (vm_compute; reflexivity).
  intros k [ <- | [] ]. vm_compute. discriminate.
Defined.


(** C3. The lookup lowers the case of the queried email only, never of the
    stored keys: with the account stored under [Alice@X.com], looking up
    [alice@x.com] finds nothing, and startup heals a second entry from the
    Session instead of activating the stored account. *)
Theorem lookup_misses_key_stored_in_upper_case :
  (forall w, find_user [("Alice@X.com", Examples.Alice_cased)] "alice@x.com" w
             = Returns None w)
  /\ returns_with (initialize Examples.cased_world)
       (fun w' =>
          user (react w') = Some (User.with_cart Examples.alice [])
          /\ cartItems (react w') = []
          /\ directory w'
             = Value [("Alice@X.com", Examples.Alice_cased);
                      ("alice@x.com", User.with_cart Examples.alice [])]).
Proof.
  split.
  - intro w. reflexivity.
  - vm_compute. repeat split.
Qed.

(** What the lookup does find: a key equal to the email in lower case. *)
Lemma lookup_finds_lowered_email db email u w :
  obj_get email db = None ->
  obj_get (toLowerCase email) db = Some u ->
  inherited email = false ->
  find_user db email w = Returns (Some u) w.
Proof.
  intros H1 H2 H3. unfold find_user, mbind, get_user, ret.
  rewrite H1, H3, H2. reflexivity.
Qed.


(** C4, as the spec states it, fails: with a valid Session and a
    directory blob that is not JSON, startup activates nobody and removes
    the Session, and login and [persistUser] let the [SyntaxError] escape. *)
Lemma corrupt_directory_clears_session :
  directory Examples.corrupt_world = Corrupt
  /\ session Examples.corrupt_world = Value Examples.alice
  /\ returns_with (initialize Examples.corrupt_world)
       (fun w' => session w' = Absent /\ user (react w') = None)
  /\ dispatch (fun s => handleLogin s Examples.alice_auth) Examples.corrupt_world
     = Throws SyntaxError Examples.corrupt_world
  /\ throws_with (persistUser Examples.alice Examples.corrupt_world)
       (fun w' => session w' = Value Examples.alice /\ directory w' = Corrupt).
Proof.
  split; [ vm_compute; reflexivity | ].
  split; [ vm_compute; reflexivity | ].
  split; [ vm_compute; split; reflexivity | ].
  split; [ vm_compute; reflexivity | ].
  vm_compute; split; reflexivity.
Qed.

Lemma load_db_throws w text :
  obj_get USERS_DB (localStorage w) = Some text -> text <> "" ->
  parse text = Malformed ->
  load_db w = Throws SyntaxError w.
Proof.
  intros Hblob Hne Hparse. unfold load_db, mbind, getItem. rewrite Hblob.
  destruct text as [ | c text ]; [ contradiction | ].
  unfold JSON_parse. rewrite Hparse. reflexivity.
Qed.

(** C4, amended. An absent or empty directory blob is read as the empty
    directory.  A non-empty blob that is not JSON is not: login throws
    before it changes anything; [persistUser] has set the live account and
    the Session and then throws, the blob left as it was; startup catches
    the error, activates nobody and leaves the directory blob and the
    guest cart blob as they were. *)
Theorem corrupt_directory_is_not_read_as_empty (w : World) (text : string) :
  obj_get USERS_DB (localStorage w) = Some text ->
  text <> "" ->
  parse text = Malformed ->
  (forall w0,
      obj_get USERS_DB (localStorage w0) = None
      \/ obj_get USERS_DB (localStorage w0) = Some "" ->
      load_db w0 = Returns [] w0)
  /\ (forall s userFromAuth,
         handleLogin s userFromAuth w = Throws SyntaxError w)
  /\ (forall u,
         persistUser u w
         = Throws SyntaxError
             (mkWorld (signed_in u (react w))
                (obj_set SESSION (stringify (encode_user u)) (localStorage w))))
  /\ (forall sessionUser,
         session w = Value sessionUser ->
         exists w',
           initialize w = Returns tt w'
           /\ react w' = react w
           /\ obj_get USERS_DB (localStorage w') = Some text
           /\ obj_get GUEST_CART (localStorage w')
              = obj_get GUEST_CART (localStorage w)).
Proof.
  intros Hblob Hne Hparse.
  assert (Hthrow := load_db_throws w text Hblob Hne Hparse).
  repeat split.
  - intros w0 [H | H]; unfold load_db, mbind, getItem; rewrite H; reflexivity.
  - intros s userFromAuth. unfold handleLogin, mbind. rewrite Hthrow.
    reflexivity.
  - intro u. unfold persistUser, mbind, setUser, update, setItem.
    cbn [react localStorage].
    rewrite (load_db_throws _ text); [ reflexivity | | exact Hne | exact Hparse ].
    cbn [localStorage]. rewrite obj_get_set_other by reflexivity. exact Hblob.
  - intros sessionUser Hs.
    destruct (read_value decode_user SESSION w sessionUser Hs)
      as (c & stext & Hsblob & Hsparse).
    exists (mkWorld (react w) (obj_remove SESSION (localStorage w))).
    repeat split.
    + unfold initialize, mbind, getItem. rewrite Hsblob.
      unfold try_catch, mbind. rewrite Hsparse, Hthrow. reflexivity.
    + cbn [localStorage]. rewrite obj_get_remove_other by reflexivity.
      exact Hblob.
    + cbn [localStorage]. apply obj_get_remove_other. reflexivity.
Qed.

Lemma corrupt_directory_example :
  (forall w0,
      obj_get USERS_DB (localStorage w0) = None
      \/ obj_get USERS_DB (localStorage w0) = Some "" ->
      load_db w0 = Returns [] w0)
  /\ (forall s userFromAuth,
         handleLogin s userFromAuth Examples.corrupt_world
         = Throws SyntaxError Examples.corrupt_world)
  /\ (forall u,
         persistUser u Examples.corrupt_world
         = Throws SyntaxError
             (mkWorld (signed_in u (react Examples.corrupt_world))
                (obj_set SESSION (stringify (encode_user u))
                   (localStorage Examples.corrupt_world))))
  /\ (forall sessionUser,
         session Examples.corrupt_world = Value sessionUser ->
         exists w',
           initialize Examples.corrupt_world = Returns tt w'
           /\ react w' = react Examples.corrupt_world
           /\ obj_get USERS_DB (localStorage w') = Some "{"
           /\ obj_get GUEST_CART (localStorage w')
              = obj_get GUEST_CART (localStorage Examples.corrupt_world)).
Proof.
  apply (corrupt_directory_is_not_read_as_empty Examples.corrupt_world "{").
  - reflexivity.
  - discriminate.
  - reflexivity.
Defined.





(** C6. Checkout of a non-empty cart builds an order whose items are the
    cart as it is (same entries, same order, same length), whose total is
    the prices added from left to right starting at 0, with status
    [processing], the given delivery details, the identifier drawn for it
    and the timestamp of the moment; for a signed-in user it is the last
    order of the history afterwards. *)
Theorem checkout_order_copies_cart_and_sums_prices
  (s : State) (randomId now : string) (deliveryDetails : DeliveryDetails.t) :
  cartItems s <> [] ->
  let order := newOrder s randomId now deliveryDetails in
  Order.items order = cartItems s
  /\ List.length (Order.items order) = List.length (cartItems s)
  /\ Order.total order
     = fold_left (fun acc item => (acc + Product.price item)%float)
         (cartItems s) 0%float
  /\ Order.status order = processing
  /\ Order.delivery order = Some deliveryDetails
  /\ Order.id order = randomId
  /\ Order.date order = now
  /\ forall w db u,
       react w = s -> user s = Some u -> load_db w = Returns db w ->
       exists w' u',
         dispatch (fun s => processOrder s randomId now deliveryDetails) w
         = Returns tt w'
         /\ user (react w') = Some u'
         /\ User.orders u' = Some (User.orders_or_empty u ++ [order])%list.
Proof.
  intros Hne order. repeat split.
  intros w db u Hs Hu Hload. unfold dispatch. rewrite Hs.
  rewrite (processOrder_returns w db Hload s _ _ _ u Hu Hne).
  eexists. eexists. repeat split.
Qed.

Lemma checkout_order_example :
  let order :=
    newOrder (react Examples.alice_world) "K3J9X0QZA" "2024-05-01T10:00:00.000Z"
      Examples.delivery in
  (Order.total order = 35.5%float /\ List.length (Order.items order) = 2%nat)
  /\ Order.items order = [Examples.p1; Examples.p2]
  /\ List.length (Order.items order)
     = List.length (cartItems (react Examples.alice_world))
  /\ Order.total order
     = fold_left (fun acc item => (acc + Product.price item)%float)
         (cartItems (react Examples.alice_world)) 0%float
  /\ Order.status order = processing
  /\ Order.delivery order = Some Examples.delivery
  /\ Order.id order = "K3J9X0QZA"
  /\ Order.date order = "2024-05-01T10:00:00.000Z"
  /\ forall w db u,
       react w = react Examples.alice_world ->
       user (react Examples.alice_world) = Some u ->
       load_db w = Returns db w ->
       exists w' u',
         dispatch (fun s => processOrder s "K3J9X0QZA" "2024-05-01T10:00:00.000Z"
                              Examples.delivery) w
         = Returns tt w'
         /\ user (react w') = Some u'
         /\ User.orders u' = Some (User.orders_or_empty u ++ [order])%list.
Proof.
  split; [ split; vm_compute; reflexivity | ].
  apply (checkout_order_copies_cart_and_sums_prices
           (react Examples.alice_world)).
  discriminate.
Defined.

(** C7. A signed-in checkout appends the new order to the history of that
    account, which grows by one, empties the cart of the account in the
    Session and in the Directory, and leaves the entry of every other
    email as it was. *)
Theorem checkout_clears_only_the_purchaser
  (w : World) (db : Directory) (u : User.t)
  (randomId now : string) (deliveryDetails : DeliveryDetails.t) :
  user (react w) = Some u ->
  cartItems (react w) <> [] ->
  load_db w = Returns db w ->
  wf_accounts db = true ->
  wf_user u = true ->
  forallb clean_product (cartItems (react w)) = true ->
  Number.json_safe (cart_total (cartItems (react w))) = true ->
  exists w' u' db',
    dispatch (fun s => processOrder s randomId now deliveryDetails) w
    = Returns tt w'
    /\ User.orders_or_empty u'
       = (User.orders_or_empty u
          ++ [newOrder (react w) randomId now deliveryDetails])%list
    /\ List.length (User.orders_or_empty u')
       = S (List.length (User.orders_or_empty u))
    /\ User.cart u' = Some []
    /\ User.email u' = User.email u
    /\ user (react w') = Some u'
    /\ cartItems (react w') = []
    /\ session w' = Value u'
    /\ directory w' = Value db'
    /\ obj_get (User.email u) db' = Some u'
    /\ forall k, k <> User.email u -> obj_get k db' = obj_get k db.
Proof.
  intros Hu Hne Hload Hacc Hwf Hcart Htotal.
  assert (Hdb := load_db_wf_dir w db Hload Hacc).
  set (u' := User.with_orders_cart u
               (User.orders_or_empty u
                ++ [newOrder (react w) randomId now deliveryDetails]) []).
  assert (Hwf' : wf_user u' = true) by (apply wf_user_with_order; assumption).
  unfold dispatch. rewrite (processOrder_returns w db Hload _ _ _ _ u Hu Hne).
  eexists. exists u', (obj_set (User.email u) u' db).
  destruct (persisted_in_sync u' db w
              (mkWorld (react w) (localStorage (persisted u' db w)))
              Hdb Hwf' eq_refl eq_refl) as (Hs & Hd & Hl & Hw).
  split; [ reflexivity | ]. split; [ reflexivity | ].
  split.
  { cbn [u' User.orders_or_empty User.with_orders_cart User.orders].
    rewrite length_app. cbn [List.length]. lia. }
  split; [ reflexivity | ]. split; [ reflexivity | ].
  split; [ reflexivity | ]. split; [ reflexivity | ].
  split; [ exact Hs | ]. split; [ exact Hd | ].
  split; [ apply obj_get_set_same | ].
  intros k Hk. apply obj_get_set_other.
  apply String.eqb_neq. exact Hk.
Qed.


Lemma checkout_frame_example :
  exists w' u' db',
    dispatch (fun s => processOrder s "K3J9X0QZA" "2024-05-01T10:00:00.000Z"
                         Examples.delivery) Examples.alice_world
    = Returns tt w'
    /\ User.orders_or_empty u'
       = (User.orders_or_empty Examples.alice
          ++ [newOrder (react Examples.alice_world) "K3J9X0QZA"
                "2024-05-01T10:00:00.000Z" Examples.delivery])%list
    /\ List.length (User.orders_or_empty u')
       = S (List.length (User.orders_or_empty Examples.alice))
    /\ User.cart u' = Some []
    /\ User.email u' = User.email Examples.alice
    /\ user (react w') = Some u'
    /\ cartItems (react w') = []
    /\ session w' = Value u'
    /\ directory w' = Value db'
    /\ obj_get (User.email Examples.alice) db' = Some u'
    /\ forall k, k <> User.email Examples.alice ->
                 obj_get k db'
                 = obj_get k [("alice@x.com", Examples.alice);
                              ("bob@x.com", Examples.bob)].
Proof.
  apply (checkout_clears_only_the_purchaser Examples.alice_world
           [("alice@x.com", Examples.alice); ("bob@x.com", Examples.bob)]
           Examples.alice);
    try discriminate; vm_compute; reflexivity.
Defined.

(** The round trip needs the hypothesis on the numbers: a price that is
    [NaN] is written as [null], and what is read back is no [User]. *)
Lemma nan_price_is_not_reloaded :
  reload_user Examples.nan_user <> Value Examples.nan_user
  /\ reload_user Examples.nan_user = NotTyped
  /\ parse (stringify (JNum PrimFloat.nan)) = Parsed JNull.
Proof.
  split; [ vm_compute; discriminate | ].
  split; vm_compute; reflexivity.
Qed.

(** C8. The round-trip law of the Record Codec: a [User] is decoded back
    from its encoding as itself, whichever of its optional fields are
    absent (password, cart, orders, delivery details, description, image),
    its prices and totals being numbers that the JSON text carries. *)
Theorem clean_user_reloads_as_itself (u : User.t) :
  clean_user u = true -> reload_user u = Value u.
Proof.
  intro Hu. unfold reload_user.
  rewrite parse_stringify by (rewrite json_ok_user; exact Hu).
  rewrite decode_encode_user. reflexivity.
Qed.

Lemma clean_user_reload_example :
  reload_user Examples.alice = Value Examples.alice
  /\ reload_user Examples.alice_auth = Value Examples.alice_auth
  /\ reload_user
       (User.with_orders_cart Examples.bob
          [Order.mk "A1" "2024-05-01T10:00:00.000Z" [Examples.p1; Examples.p2]
             35.5%float processing None] [])
     = Value
         (User.with_orders_cart Examples.bob
            [Order.mk "A1" "2024-05-01T10:00:00.000Z" [Examples.p1; Examples.p2]
               35.5%float processing None] []).
Proof.
  split; [ | split ];
    apply clean_user_reloads_as_itself; vm_compute; reflexivity.
Defined.

(** The numbers the JSON text does not carry. *)
Lemma json_unsafe_numbers :
  Number.json_safe PrimFloat.nan = false
  /\ Number.json_safe PrimFloat.infinity = false
  /\ Number.json_safe PrimFloat.neg_infinity = false
  /\ Number.json_safe PrimFloat.neg_zero = false.
Proof. repeat split; vm_compute; reflexivity. Qed.

(** C9. Checkout with an empty live cart does nothing: the handler
    returns, and the cells and every stored blob are as before. *)
Theorem empty_cart_checkout_is_a_no_op
  (w : World) (randomId now : string) (deliveryDetails : DeliveryDetails.t) :
  cartItems (react w) = [] ->
  dispatch (fun s => processOrder s randomId now deliveryDetails) w
  = Returns tt w.
Proof.
  intro Hempty. unfold dispatch, processOrder. rewrite Hempty. reflexivity.
Qed.

Lemma empty_cart_checkout_example :
  dispatch (fun s => processOrder s "K3J9X0QZA" "2024-05-01T10:00:00.000Z"
                       Examples.delivery) Examples.alice_empty_world
  = Returns tt Examples.alice_empty_world.
Proof.
  apply empty_cart_checkout_is_a_no_op. reflexivity.
Defined.

Lemma filter_length_partition {A : Type} (f : A -> bool) l :
  (List.length (filter f l) + List.length (filter (fun x => negb (f x)) l)
   = List.length l)%nat.
Proof.
  induction l as [ | a l IH ]; simpl; [ reflexivity | ].
  destruct (f a); simpl; lia.
Qed.

(** C10. [removeFromCart id] drops every entry of the live cart whose
    identifier is [id], however many there are, and keeps the other
    entries in their order. *)
Theorem removeFromCart_removes_every_occurrence
  (w : World) (db : Directory) (id : string) :
  user (react w) = None \/ load_db w = Returns db w ->
  exists w',
    dispatch (fun s => removeFromCart s id) w = Returns tt w'
    /\ cartItems (react w')
       = filter (fun item => negb (String.eqb (Product.id item) id))
           (cartItems (react w))
    /\ (forall item, In item (cartItems (react w')) -> Product.id item <> id)
    /\ (forall item, In item (cartItems (react w)) -> Product.id item <> id ->
                     In item (cartItems (react w')))
    /\ (List.length (cartItems (react w'))
        + List.length (filter (fun item => String.eqb (Product.id item) id)
                         (cartItems (react w)))
        = List.length (cartItems (react w)))%nat.
Proof.
  intro H.
  set (newCart := filter (fun item => negb (String.eqb (Product.id item) id))
                    (cartItems (react w))).
  assert (Hrun : exists w', dispatch (fun s => removeFromCart s id) w = Returns tt w'
                            /\ cartItems (react w') = newCart).
  { unfold dispatch. destruct (user (react w)) as [ u | ] eqn:Hu.
    - destruct H as [ H | Hload ]; [ discriminate | ].
      rewrite (removeFromCart_returns w db Hload _ _ u Hu).
      eexists. split; reflexivity.
    - unfold removeFromCart, mbind. rewrite Hu. eexists. split; reflexivity. }
  destruct Hrun as (w' & Hrun & Hcart). exists w'.
  split; [ exact Hrun | ]. split; [ exact Hcart | ]. rewrite Hcart.
  split; [ | split ].
  - intros item Hin. apply filter_In in Hin as [_ Hid].
    apply negb_true_iff in Hid. apply String.eqb_neq. exact Hid.
  - intros item Hin Hid. apply filter_In. split; [ exact Hin | ].
    apply negb_true_iff. apply String.eqb_neq. exact Hid.
  - unfold newCart.
    rewrite Nat.add_comm.
    rewrite <- (filter_length_partition
                  (fun item => String.eqb (Product.id item) id)
                  (cartItems (react w))).
    reflexivity.
Qed.

Lemma removeFromCart_example :
  exists w',
    dispatch (fun s => removeFromCart s "p2") Examples.duplicates_world
    = Returns tt w'
    /\ cartItems (react w')
       = filter (fun item => negb (String.eqb (Product.id item) "p2"))
           (cartItems (react Examples.duplicates_world))
    /\ (forall item, In item (cartItems (react w')) -> Product.id item <> "p2")
    /\ (forall item, In item (cartItems (react Examples.duplicates_world)) ->
                     Product.id item <> "p2" -> In item (cartItems (react w')))
    /\ (List.length (cartItems (react w'))
        + List.length (filter (fun item => String.eqb (Product.id item) "p2")
                         (cartItems (react Examples.duplicates_world)))
        = List.length (cartItems (react Examples.duplicates_world)))%nat.
Proof.
  apply (removeFromCart_removes_every_occurrence Examples.duplicates_world []).
  left. reflexivity.
Defined.

End Claims.

(** * Startup, guests, logout and sequences of events *)

Module Extras.
Import JSON Codec App App.STORAGE_KEYS JSONFacts CodecFacts AppFacts
  HandlerFacts Claims Page.
Local Open Scope string_scope.

(** **** Helpers *)

Lemma load_db_world w :
  (exists db, load_db w = Returns db w)
  \/ load_db w = Throws SyntaxError w
  \/ load_db w = IllTyped.
Proof.
  unfold load_db, mbind, getItem, ret, JSON_parse.
  destruct (obj_get USERS_DB (localStorage w)) as [ [ | c text ] | ].
  - left. eauto.
  - destruct (parse (String c text)) as [ j | | ]; auto.
    destruct (decode_db j); eauto.
  - left. eauto.
Qed.

Lemma guest_cart_stored w c :
  obj_get GUEST_CART (localStorage w) = Some (stringify (encode_cart c)) ->
  forallb clean_product c = true ->
  guest_cart w = Value c.
Proof.
  intros Hget Hc. unfold guest_cart.
  apply (read_stringify decode_cart GUEST_CART w (encode_cart c) c Hget).
  - rewrite json_ok_cart. exact Hc.
  - apply decode_encode_cart.
Qed.

Lemma find_user_exact db e u w :
  obj_get e db = Some u -> find_user db e w = Returns (Some u) w.
Proof.
  intro H. unfold find_user, mbind, get_user. rewrite H. reflexivity.
Qed.

Lemma find_user_own_or_lowered db e w :
  ok_key e = true -> find_user db e w = Returns (own_or_lowered db e) w.
Proof. intro H. rewrite (find_user_returns db e w H). reflexivity. Qed.

(** **** The effect, branch by branch *)

Lemma initialize_visitor w :
  no_session w ->
  initialize w
  = match obj_get GUEST_CART (localStorage w) with
    | Some (String c text) =>
        try_catch
          (items <- JSON_parse decode_cart (String c text) ;; setCartItems items)
          (fun _ => ret tt) w
    | _ => Returns tt w
    end.
Proof.
  intros [ H | H ]; unfold initialize, mbind, getItem; rewrite H;
    destruct (obj_get GUEST_CART (localStorage w)) as [ [ | c text ] | ];
    reflexivity.
Qed.

Lemma initialize_activates w db sessionUser u :
  session w = Value sessionUser ->
  load_db w = Returns db w ->
  find_user db (User.email sessionUser) w = Returns (Some u) w ->
  initialize w
  = Returns tt
      (mkWorld
         (mkState (isCatalogOpen (react w)) (isCartOpen (react w))
            (isAuthOpen (react w)) (isProfileOpen (react w))
            (isCheckoutOpen (react w)) (User.cart_or_empty u) (Some u))
         (localStorage w)).
Proof.
  intros Hs Hload Hfind.
  destruct (read_value decode_user SESSION w sessionUser Hs)
    as (c & text & Hblob & Hparse).
  unfold initialize, mbind, getItem. rewrite Hblob.
  unfold try_catch, mbind. rewrite Hparse, Hload, Hfind. reflexivity.
Qed.

Lemma initialize_heals w db sessionUser :
  session w = Value sessionUser ->
  load_db w = Returns db w ->
  find_user db (User.email sessionUser) w = Returns None w ->
  initialize w
  = Returns tt
      (mkWorld
         (mkState (isCatalogOpen (react w)) (isCartOpen (react w))
            (isAuthOpen (react w)) (isProfileOpen (react w))
            (isCheckoutOpen (react w)) (User.cart_or_empty sessionUser)
            (Some sessionUser))
         (obj_set USERS_DB
            (stringify
               (encode_db (put_user db (User.email sessionUser) sessionUser)))
            (localStorage w))).
Proof.
  intros Hs Hload Hfind.
  destruct (read_value decode_user SESSION w sessionUser Hs)
    as (c & text & Hblob & Hparse).
  unfold initialize, mbind, getItem. rewrite Hblob.
  unfold try_catch, mbind. rewrite Hparse, Hload, Hfind. reflexivity.
Qed.

Lemma reload_activates w db sessionUser u :
  session w = Value sessionUser ->
  load_db w = Returns db w ->
  find_user db (User.email sessionUser) w = Returns (Some u) w ->
  reload w
  = Returns tt
      (mkWorld
         (mkState false false false false false (User.cart_or_empty u) (Some u))
         (localStorage w)).
Proof.
  intros Hs Hload Hfind. unfold reload, load.
  apply (initialize_activates (mkWorld initial_state (localStorage w)) db
           sessionUser u).
  - unfold session. rewrite (read_depends decode_user SESSION w); [ exact Hs | ].
    reflexivity.
  - apply (load_db_depends w); [ reflexivity | exact Hload ].
  - revert Hfind. unfold find_user, mbind, get_user, ret, ill_typed.
    destruct (obj_get (User.email sessionUser) db).
    + intro H. injection H as <-. reflexivity.
    + destruct (inherited (User.email sessionUser)); [ discriminate | ].
      destruct (obj_get (toLowerCase (User.email sessionUser)) db).
      * intro H. injection H as <-. reflexivity.
      * destruct (inherited (toLowerCase (User.email sessionUser)));
          discriminate.
Qed.

Lemma initialize_visitor_cart w c :
  no_session w ->
  guest_cart w = Value c ->
  initialize w
  = Returns tt
      (mkWorld
         (mkState (isCatalogOpen (react w)) (isCartOpen (react w))
            (isAuthOpen (react w)) (isProfileOpen (react w))
            (isCheckoutOpen (react w)) c (user (react w)))
         (localStorage w)).
Proof.
  intros Hno Hg. rewrite (initialize_visitor w Hno).
  destruct (read_value decode_cart GUEST_CART w c Hg)
    as (ch & text & Hblob & Hparse).
  rewrite Hblob. unfold try_catch, mbind. rewrite Hparse. reflexivity.
Qed.

Lemma initialize_corrupt_session w :
  session w = Corrupt ->
  ~ no_session w ->
  initialize w
  = Returns tt (mkWorld (react w) (obj_remove SESSION (localStorage w))).
Proof.
  intros Hs Hno. unfold session, read in Hs. unfold no_session in Hno.
  unfold initialize, mbind, getItem.
  destruct (obj_get SESSION (localStorage w)) as [ [ | c text ] | ];
    [ exfalso; apply Hno; right; reflexivity | | discriminate ].
  unfold try_catch, mbind, JSON_parse.
  destruct (parse (String c text)) as [ j | | ]; [ | reflexivity | discriminate ].
  destruct (decode_user j); discriminate.
Qed.

(** **** Startup *)

(** X1. A visitor without a session gets the stored guest cart as the
    live cart; nobody is signed in by it and [localStorage] is not
    written. *)
Theorem startup_without_session_adopts_guest_cart (w : World) (c : list Product.t) :
  no_session w ->
  guest_cart w = Value c ->
  exists w',
    initialize w = Returns tt w'
    /\ cartItems (react w') = c
    /\ user (react w') = user (react w)
    /\ localStorage w' = localStorage w.
Proof.
  intros Hno Hg. eexists. split.
  - apply initialize_visitor_cart; [ exact Hno | exact Hg ].
  - cbn [react localStorage cartItems user]. auto.
Qed.

Lemma startup_guest_cart_example :
  exists w',
    initialize (mkWorld initial_state visitor_storage) = Returns tt w'
    /\ cartItems (react w') = [Examples.p2; Examples.p3]
    /\ user (react w') = None
    /\ localStorage w' = visitor_storage.
Proof.
  apply (startup_without_session_adopts_guest_cart
           (mkWorld initial_state visitor_storage) [Examples.p2; Examples.p3]).
  - left. vm_compute. reflexivity.
  - vm_compute. reflexivity.
Defined.

(** X2. A guest cart blob that is missing or is not JSON leaves the start
    without effect: the exception of [JSON.parse] is swallowed, the cells
    keep their values and the blob is not removed. *)
Theorem startup_ignores_unreadable_guest_cart (w : World) :
  no_session w ->
  guest_cart w = Absent \/ guest_cart w = Corrupt ->
  initialize w = Returns tt w.
Proof.
  intros Hno Hg. rewrite (initialize_visitor w Hno).
  unfold guest_cart, read in Hg.
  destruct (obj_get GUEST_CART (localStorage w)) as [ [ | ch text ] | ];
    [ reflexivity | | reflexivity ].
  unfold try_catch, mbind, JSON_parse.
  destruct (parse (String ch text)) as [ j | | ].
  - destruct (decode_cart j); destruct Hg; discriminate.
  - destruct w. reflexivity.
  - destruct Hg; discriminate.
Qed.

Lemma startup_unreadable_guest_cart_example :
  initialize broken_guest_cart = Returns tt broken_guest_cart.
Proof.
  apply (startup_ignores_unreadable_guest_cart broken_guest_cart).
  - left. vm_compute. reflexivity.
  - right. vm_compute. reflexivity.
Defined.

(** X3. A session blob that is not JSON is removed and nothing else
    happens: the cells keep their values, so nobody is signed in and the
    guest cart is not adopted by this start, and the directory and the
    guest cart blob are as before. *)
Theorem startup_removes_corrupt_session (w : World) :
  session w = Corrupt ->
  ~ no_session w ->
  exists w',
    initialize w = Returns tt w'
    /\ react w' = react w
    /\ localStorage w' = obj_remove SESSION (localStorage w)
    /\ session w' = Absent
    /\ directory w' = directory w
    /\ guest_cart w' = guest_cart w.
Proof.
  intros Hs Hno.
  exists (mkWorld (react w) (obj_remove SESSION (localStorage w))).
  split; [ apply initialize_corrupt_session; assumption | ].
  split; [ reflexivity | ]. split; [ reflexivity | ].
  split.
  { unfold session, read. cbn [localStorage].
    rewrite obj_get_remove_same. reflexivity. }
  split.
  - apply read_depends. cbn [localStorage].
    apply obj_get_remove_other. reflexivity.
  - apply read_depends. cbn [localStorage].
    apply obj_get_remove_other. reflexivity.
Qed.

Lemma startup_corrupt_session_example :
  exists w',
    initialize broken_session = Returns tt w'
    /\ react w' = react broken_session
    /\ localStorage w' = obj_remove SESSION (localStorage broken_session)
    /\ session w' = Absent
    /\ directory w' = directory broken_session
    /\ guest_cart w' = guest_cart broken_session.
Proof.
  apply (startup_removes_corrupt_session broken_session).
  - vm_compute. reflexivity.
  - vm_compute. intros [ H | H ]; discriminate H.
Defined.

(** X4. After a corrupt session was removed, the stored guest cart shows
    only at the next load of the page. *)
Theorem guest_cart_shows_one_load_after_corrupt_session
  (w : World) (c : list Product.t) :
  session w = Corrupt ->
  ~ no_session w ->
  guest_cart w = Value c ->
  returns_with (initialize w) (fun w' => cartItems (react w') = cartItems (react w))
  /\ returns_with (and_then (initialize w) reload)
       (fun w'' => cartItems (react w'') = c /\ user (react w'') = None).
Proof.
  intros Hs Hno Hg.
  rewrite (initialize_corrupt_session w Hs Hno). cbn [returns_with and_then react]. split; [ reflexivity | ].
  unfold reload, load. cbn [localStorage].
  rewrite (initialize_visitor_cart
             (mkWorld initial_state (obj_remove SESSION (localStorage w))) c).
  - cbn [returns_with react cartItems user initial_state]. auto.
  - left. cbn [localStorage]. apply obj_get_remove_same.
  - unfold guest_cart. rewrite (read_depends decode_cart GUEST_CART w);
      [ exact Hg | ].
    cbn [localStorage]. apply obj_get_remove_other. reflexivity.
Qed.

Lemma guest_cart_after_corrupt_session_example :
  returns_with (initialize broken_session)
    (fun w' => cartItems (react w') = cartItems (react broken_session))
  /\ returns_with (and_then (initialize broken_session) reload)
       (fun w'' => cartItems (react w'') = [Examples.p3] /\ user (react w'') = None).
Proof.
  apply (guest_cart_shows_one_load_after_corrupt_session broken_session
           [Examples.p3]).
  - vm_compute. reflexivity.
  - vm_compute. intros [ H | H ]; discriminate H.
  - vm_compute. reflexivity.
Defined.

(** X5. When the directory knows the email of the session, the record of
    the directory is the one activated, not the snapshot of the session:
    the user and the live cart come from the directory, and the start
    writes nothing, so the session blob keeps its snapshot. *)
Theorem startup_prefers_directory_record
  (w : World) (db : Directory) (sessionUser u : User.t) :
  session w = Value sessionUser ->
  load_db w = Returns db w ->
  find_user db (User.email sessionUser) w = Returns (Some u) w ->
  exists w',
    initialize w = Returns tt w'
    /\ user (react w') = Some u
    /\ cartItems (react w') = User.cart_or_empty u
    /\ localStorage w' = localStorage w
    /\ session w' = Value sessionUser.
Proof.
  intros Hs Hload Hfind. eexists. split.
  - exact (initialize_activates w db sessionUser u Hs Hload Hfind).
  - cbn [react user cartItems localStorage].
    split; [ reflexivity | ]. split; [ reflexivity | ].
    split; [ reflexivity | ].
    unfold session. rewrite (read_depends decode_user SESSION w); [ exact Hs | ].
    reflexivity.
Qed.

Lemma startup_directory_record_example :
  exists w',
    initialize stale_session = Returns tt w'
    /\ user (react w') = Some Examples.alice
    /\ cartItems (react w') = [Examples.p1; Examples.p2]
    /\ localStorage w' = localStorage stale_session
    /\ session w'
       = Value (User.mk "Alice" "Alice@X.com" None (Some []) None).
Proof.
  apply (startup_prefers_directory_record stale_session
           [("alice@x.com", Examples.alice)]
           (User.mk "Alice" "Alice@X.com" None (Some []) None)
           Examples.alice);
    vm_compute; reflexivity.
Defined.

Lemma initialize_no_throw w e w' : initialize w <> Throws e w'.
Proof.
  assert (Hguest :
            forall text : string,
              try_catch
                (items <- JSON_parse decode_cart text ;; setCartItems items)
                (fun _ => ret tt) w <> Throws e w').
  { intro text. unfold try_catch, mbind, JSON_parse.
    destruct (parse text) as [ j | | ]; try discriminate.
    destruct (decode_cart j); discriminate. }
  unfold initialize. unfold mbind at 1. unfold getItem at 1.
  destruct (obj_get SESSION (localStorage w)) as [ [ | c text ] | ].
  - unfold mbind at 1. unfold getItem.
    destruct (obj_get GUEST_CART (localStorage w)) as [ [ | c text ] | ];
      try discriminate.
    apply Hguest.
  - unfold try_catch at 1.
    match goal with
    | |- match ?body with _ => _ end <> _ => destruct body
    end; discriminate.
  - unfold mbind at 1. unfold getItem.
    destruct (obj_get GUEST_CART (localStorage w)) as [ [ | c text ] | ];
      try discriminate.
    apply Hguest.
Qed.

(** X6. The effect lets no exception escape, whatever the cells and the
    three blobs hold: each [JSON.parse] sits in a [try] whose [catch]
    cannot throw, so the effect returns (or, in the model, meets stored
    JSON of another type). *)
Theorem startup_never_throws (w : World) :
  (exists w', initialize w = Returns tt w') \/ initialize w = IllTyped.
Proof.
  destruct (initialize w) as [ [] w1 | e w1 | ] eqn:E.
  - left. exists w1. reflexivity.
  - exfalso. exact (initialize_no_throw w e w1 E).
  - right. reflexivity.
Qed.

(** **** Guests *)

Lemma on_edit_guest e w :
  user (react w) = None ->
  on_edit e w
  = Returns tt
      (mkWorld
         (mkState (isCatalogOpen (react w))
            match e with Add _ => true | Remove _ => isCartOpen (react w) end
            (isAuthOpen (react w)) (isProfileOpen (react w))
            (isCheckoutOpen (react w)) (edit_cart (cartItems (react w)) e) None)
         (obj_set GUEST_CART
            (stringify (encode_cart (edit_cart (cartItems (react w)) e)))
            (localStorage w))).
Proof.
  intro Hu. destruct e as [ product | id ]; cbn [on_edit edit_cart];
    unfold dispatch, addToCart, removeFromCart, mbind, setCartItems, update,
      persistGuestCart, setItem, setIsCartOpen;
    rewrite Hu; cbn [react localStorage user cartItems isCatalogOpen isCartOpen
                       isAuthOpen isProfileOpen isCheckoutOpen];
    rewrite ?Hu; reflexivity.
Qed.

(** After guest edits, the world: nobody signed in, the cart folded over
    the edits, the session blob untouched and, after at least one edit, the
    guest cart blob holding the live cart. *)
Lemma guest_edits_returns es : forall w,
  user (react w) = None ->
  exists w',
    events (map on_edit es) w = Returns tt w'
    /\ user (react w') = None
    /\ cartItems (react w') = fold_left edit_cart es (cartItems (react w))
    /\ (forall k, String.eqb k GUEST_CART = false ->
                  obj_get k (localStorage w') = obj_get k (localStorage w))
    /\ (es <> [] ->
        obj_get GUEST_CART (localStorage w')
        = Some (stringify (encode_cart (cartItems (react w'))))).
Proof.
  induction es as [ | e es IH ]; intros w Hu.
  - exists w. split; [ reflexivity | ]. split; [ exact Hu | ].
    split; [ reflexivity | ]. split; [ reflexivity | ].
    intro H. contradiction.
  - cbn [map events fold_left]. unfold mbind at 1.
    rewrite (on_edit_guest e w Hu).
    match goal with
    | |- context [events _ ?W] => destruct (IH W eq_refl) as (w' & Hr & Hu' & Hc & Hk & Hg)
    end.
    exists w'. cbn [react localStorage cartItems] in *.
    split; [ exact Hr | ]. split; [ exact Hu' | ]. split; [ exact Hc | ].
    split.
    + intros k Hkne. rewrite (Hk k Hkne). apply obj_get_set_other. exact Hkne.
    + intros _. destruct es as [ | e' es ].
      * cbn [map events] in Hr. injection Hr as <-.
        cbn [react localStorage cartItems]. apply obj_get_set_same.
      * apply Hg. discriminate.
Qed.

(** X7. While nobody is signed in, any sequence of [addToCart] and
    [removeFromCart] returns, whatever the directory and session blobs
    hold; it writes the guest cart blob only, and after the last edit the
    blob is the text of the live cart. *)
Theorem guest_edits_write_only_the_guest_cart (w : World) (es : list edit) :
  user (react w) = None ->
  es <> [] ->
  exists w',
    events (map on_edit es) w = Returns tt w'
    /\ user (react w') = None
    /\ cartItems (react w') = fold_left edit_cart es (cartItems (react w))
    /\ obj_get GUEST_CART (localStorage w')
       = Some (stringify (encode_cart (cartItems (react w'))))
    /\ session w' = session w
    /\ directory w' = directory w.
Proof.
  intros Hu Hne.
  destruct (guest_edits_returns es w Hu) as (w' & Hr & Hu' & Hc & Hk & Hg).
  exists w'. split; [ exact Hr | ]. split; [ exact Hu' | ].
  split; [ exact Hc | ]. split; [ exact (Hg Hne) | ].
  split; apply read_depends; apply Hk; reflexivity.
Qed.

Lemma guest_edits_example :
  exists w',
    events (map on_edit [Add Examples.p3; Remove "p1"; Add Examples.p1])
      Examples.corrupt_world
    = Returns tt w'
    /\ user (react w') = None
    /\ cartItems (react w')
       = fold_left edit_cart [Add Examples.p3; Remove "p1"; Add Examples.p1]
           (cartItems (react Examples.corrupt_world))
    /\ obj_get GUEST_CART (localStorage w')
       = Some (stringify (encode_cart (cartItems (react w'))))
    /\ session w' = session Examples.corrupt_world
    /\ directory w' = directory Examples.corrupt_world.
Proof.
  apply (guest_edits_write_only_the_guest_cart Examples.corrupt_world
           [Add Examples.p3; Remove "p1"; Add Examples.p1]).
  - reflexivity.
  - discriminate.
Defined.

(** X8. A guest's cart survives a reload: after any edits of a visitor
    without a session, loading the page again shows the same cart. *)
Theorem guest_cart_survives_reload (w : World) (es : list edit) :
  user (react w) = None ->
  no_session w ->
  es <> [] ->
  forallb clean_product (fold_left edit_cart es (cartItems (react w))) = true ->
  returns_with (and_then (events (map on_edit es) w) reload)
    (fun w'' =>
       cartItems (react w'') = fold_left edit_cart es (cartItems (react w))
       /\ user (react w'') = None).
Proof.
  intros Hu Hno Hne Hclean.
  destruct (guest_edits_returns es w Hu) as (w' & Hr & Hu' & Hc & Hk & Hg).
  rewrite Hr. cbn [and_then]. unfold reload, load.
  rewrite (initialize_visitor_cart (mkWorld initial_state (localStorage w'))
             (fold_left edit_cart es (cartItems (react w)))).
  - cbn [returns_with react cartItems user initial_state]. auto.
  - unfold no_session in *. cbn [localStorage].
    rewrite (Hk SESSION eq_refl). exact Hno.
  - apply guest_cart_stored; [ | exact Hclean ].
    cbn [localStorage]. rewrite (Hg Hne), Hc. reflexivity.
Qed.

Lemma guest_reload_example :
  returns_with
    (and_then (events (map on_edit [Add Examples.p3; Remove "p1"]) guest_shopping)
       reload)
    (fun w'' =>
       cartItems (react w'')
       = fold_left edit_cart [Add Examples.p3; Remove "p1"]
           (cartItems (react guest_shopping))
       /\ user (react w'') = None).
Proof.
  apply (guest_cart_survives_reload guest_shopping
           [Add Examples.p3; Remove "p1"]).
  - reflexivity.
  - left. vm_compute. reflexivity.
  - discriminate.
  - vm_compute. reflexivity.
Defined.

Lemma obj_set_twice {A : Type} k (v v' : A) o :
  obj_set k v (obj_set k v' o) = obj_set k v o.
Proof.
  induction o as [ | [k0 v0] o IH ]; simpl.
  - rewrite String.eqb_refl. reflexivity.
  - destruct (String.eqb k k0) eqn:E; simpl; rewrite E; [ reflexivity | ].
    rewrite IH. reflexivity.
Qed.

Lemma filter_twice {A : Type} (f : A -> bool) l :
  filter f (filter f l) = filter f l.
Proof.
  induction l as [ | a l IH ]; simpl; [ reflexivity | ].
  destruct (f a) eqn:E; simpl; [ rewrite E, IH | ]; auto.
Qed.

Lemma filter_all {A : Type} (f : A -> bool) l :
  (forall a, In a l -> f a = true) -> filter f l = l.
Proof.
  induction l as [ | a l IH ]; simpl; intro H; [ reflexivity | ].
  rewrite (H a) by auto. rewrite IH by auto. reflexivity.
Qed.

Lemma obj_get_remove_some {A : Type} k k' (o : list (string * A)) v :
  obj_get k' (obj_remove k o) = Some v -> obj_get k' o = Some v.
Proof.
  destruct (String.eqb k' k) eqn:E.
  - apply String.eqb_eq in E. subst k'. rewrite obj_get_remove_same.
    discriminate.
  - rewrite (obj_get_remove_other k k' o E). auto.
Qed.

(** X9. Adding a product and removing it again is no undo: the copies the
    cart held before go as well. The cart is back to what it was only when
    it held no entry with that id. *)
Theorem add_then_remove_drops_earlier_copies (w : World) (p : Product.t) :
  user (react w) = None ->
  let kept :=
    filter (fun item => negb (String.eqb (Product.id item) (Product.id p)))
      (cartItems (react w)) in
  returns_with (events [on_edit (Add p); on_edit (Remove (Product.id p))] w)
    (fun w' =>
       cartItems (react w') = kept
       /\ obj_get GUEST_CART (localStorage w') = Some (stringify (encode_cart kept))
       /\ ((forall item, In item (cartItems (react w)) ->
                         Product.id item <> Product.id p) ->
           cartItems (react w') = cartItems (react w))).
Proof.
  intros Hu kept.
  destruct (guest_edits_returns [Add p; Remove (Product.id p)] w Hu)
    as (w' & Hr & _ & Hc & _ & Hg).
  change (map on_edit [Add p; Remove (Product.id p)])
    with [on_edit (Add p); on_edit (Remove (Product.id p))] in Hr.
  rewrite Hr. cbn [returns_with].
  assert (Hkept : cartItems (react w') = kept).
  { rewrite Hc. cbn [fold_left edit_cart]. rewrite filter_app.
    cbn [filter]. rewrite String.eqb_refl. cbn [negb]. apply app_nil_r. }
  split; [ exact Hkept | ]. split.
  - rewrite <- Hkept. apply Hg. discriminate.
  - intro Hfresh. rewrite Hkept. apply filter_all. intros item Hin.
    apply negb_true_iff. apply String.eqb_neq. exact (Hfresh item Hin).
Qed.

Lemma add_then_remove_example :
  returns_with
    (events [on_edit (Add Examples.p2); on_edit (Remove "p2")] guest_shopping)
    (fun w' =>
       cartItems (react w') = [Examples.p1]
       /\ obj_get GUEST_CART (localStorage w')
          = Some (stringify (encode_cart [Examples.p1]))
       /\ ((forall item, In item [Examples.p1; Examples.p2] ->
                         Product.id item <> "p2") ->
           cartItems (react w') = [Examples.p1; Examples.p2])).
Proof.
  apply (add_then_remove_drops_earlier_copies guest_shopping Examples.p2).
  reflexivity.
Defined.

(** X10. Removing the same id a second time changes nothing at all: the
    cells and [localStorage] are those the first removal left. *)
Theorem guest_remove_twice_is_remove_once (w : World) (id : string) :
  user (react w) = None ->
  events [on_edit (Remove id); on_edit (Remove id)] w = on_edit (Remove id) w.
Proof.
  intro Hu. cbn [events]. unfold mbind.
  rewrite (on_edit_guest (Remove id) w Hu).
  match goal with
  | |- match on_edit _ ?W with _ => _ end = _ =>
      rewrite (on_edit_guest (Remove id) W eq_refl)
  end.
  cbn [react localStorage cartItems isCatalogOpen isCartOpen isAuthOpen
         isProfileOpen isCheckoutOpen edit_cart ret].
  rewrite filter_twice, obj_set_twice. reflexivity.
Qed.

Lemma guest_remove_twice_example :
  events [on_edit (Remove "p2"); on_edit (Remove "p2")] Examples.duplicates_world
  = on_edit (Remove "p2") Examples.duplicates_world.
Proof.
  apply (guest_remove_twice_is_remove_once Examples.duplicates_world "p2").
  reflexivity.
Defined.

(** X11. A guest's checkout keeps no order: the cart is emptied, the guest
    cart blob removed and the checkout closed, the profile is not opened,
    and [localStorage] gains nothing, so the order exists nowhere
    afterwards. *)
Theorem guest_checkout_keeps_no_order
  (w : World) (randomId now : string) (deliveryDetails : DeliveryDetails.t) :
  user (react w) = None ->
  cartItems (react w) <> [] ->
  exists w',
    dispatch (fun s => processOrder s randomId now deliveryDetails) w
    = Returns tt w'
    /\ cartItems (react w') = []
    /\ user (react w') = None
    /\ isCheckoutOpen (react w') = false
    /\ isProfileOpen (react w') = isProfileOpen (react w)
    /\ localStorage w' = obj_remove GUEST_CART (localStorage w)
    /\ guest_cart w' = Absent
    /\ (forall k text, obj_get k (localStorage w') = Some text ->
                       obj_get k (localStorage w) = Some text).
Proof.
  intros Hu Hne.
  exists (mkWorld
            (mkState (isCatalogOpen (react w)) (isCartOpen (react w))
               (isAuthOpen (react w)) (isProfileOpen (react w)) false [] None)
            (obj_remove GUEST_CART (localStorage w))).
  split.
  { unfold dispatch, processOrder.
    destruct (cartItems (react w)) as [ | p c ] eqn:Hc; [ contradiction | ].
    cbn [List.length Nat.eqb]. unfold mbind. rewrite Hu.
    unfold setCartItems, update, removeItem, setIsCheckoutOpen.
    cbn [react localStorage user cartItems isCatalogOpen isCartOpen isAuthOpen
           isProfileOpen isCheckoutOpen].
    rewrite Hu. reflexivity. }
  cbn [react localStorage cartItems user isCheckoutOpen isProfileOpen].
  split; [ reflexivity | ]. split; [ reflexivity | ].
  split; [ reflexivity | ]. split; [ reflexivity | ].
  split; [ reflexivity | ]. split.
  - unfold guest_cart, read. cbn [localStorage].
    rewrite obj_get_remove_same. reflexivity.
  - intros k text. apply obj_get_remove_some.
Qed.

Lemma guest_checkout_example :
  exists w',
    dispatch (fun s => processOrder s "ORD-1" "2024-01-01T00:00:00.000Z"
                         Examples.delivery) guest_shopping
    = Returns tt w'
    /\ cartItems (react w') = []
    /\ user (react w') = None
    /\ isCheckoutOpen (react w') = false
    /\ isProfileOpen (react w') = isProfileOpen (react guest_shopping)
    /\ localStorage w' = obj_remove GUEST_CART (localStorage guest_shopping)
    /\ guest_cart w' = Absent
    /\ (forall k text, obj_get k (localStorage w') = Some text ->
                       obj_get k (localStorage guest_shopping) = Some text).
Proof.
  apply (guest_checkout_keeps_no_order guest_shopping "ORD-1"
           "2024-01-01T00:00:00.000Z" Examples.delivery).
  - reflexivity.
  - discriminate.
Defined.

(** **** Logout *)

(** X12. A confirmed logout removes the session blob, signs the user out,
    empties the live cart and closes the profile; the directory and the
    guest cart blob stay, so the account keeps its cart. A declined logout
    changes nothing. *)
Theorem logout_keeps_the_directory (w : World) :
  returns_with (handleLogout true w)
    (fun w' =>
       user (react w') = None
       /\ cartItems (react w') = []
       /\ isProfileOpen (react w') = false
       /\ localStorage w' = obj_remove SESSION (localStorage w)
       /\ session w' = Absent
       /\ directory w' = directory w
       /\ guest_cart w' = guest_cart w)
  /\ handleLogout false w = Returns tt w.
Proof.
  split; [ | reflexivity ].
  unfold handleLogout, mbind, removeItem, setUser, setCartItems,
    setIsProfileOpen, update.
  cbn [returns_with react localStorage user cartItems isProfileOpen].
  split; [ reflexivity | ]. split; [ reflexivity | ].
  split; [ reflexivity | ]. split; [ reflexivity | ].
  split.
  { unfold session, read. cbn [localStorage].
    rewrite obj_get_remove_same. reflexivity. }
  split; apply read_depends; cbn [localStorage]; apply obj_get_remove_other;
    reflexivity.
Qed.

(** X13. Logging out and in again brings the cart of the directory entry
    back: the cart that logout cleared is not merged into it, and the
    account's cart is not doubled. The record signed in is the entry with
    that cart in its [cart] field. *)
Theorem login_after_logout_restores_account_cart
  (w : World) (db : Directory) (userFromAuth u : User.t) :
  load_db w = Returns db w ->
  ok_key (User.email userFromAuth) = true ->
  own_or_lowered db (User.email userFromAuth) = Some u ->
  returns_with
    (and_then (handleLogout true w)
       (dispatch (fun s => handleLogin s userFromAuth)))
    (fun w' =>
       cartItems (react w') = User.cart_or_empty u
       /\ exists u',
            user (react w') = Some u'
            /\ User.cart u' = Some (User.cart_or_empty u)
            /\ User.name u' = User.name u
            /\ User.email u' = User.email u
            /\ User.password u' = User.password u
            /\ User.orders u' = User.orders u).
Proof.
  intros Hload Hok Hfound.
  unfold handleLogout, mbind, removeItem, setUser, setCartItems,
    setIsProfileOpen, update.
  cbn [and_then react localStorage]. unfold dispatch.
  match goal with
  | |- returns_with (handleLogin ?S _ ?W) _ =>
      assert (Hload1 : load_db W = Returns db W)
  end.
  { apply (load_db_depends w); [ | exact Hload ].
    cbn [localStorage]. apply obj_get_remove_other. reflexivity. }
  rewrite (handleLogin_returns _ db Hload1 _ userFromAuth (Some u)).
  - cbn [returns_with react cartItems user persisted signed_in].
    rewrite app_nil_r. split; [ reflexivity | ].
    exists (User.with_cart u (User.cart_or_empty u)).
    split; [ reflexivity | ]. split; [ reflexivity | ].
    split; [ reflexivity | ]. split; [ reflexivity | ].
    split; reflexivity.
  - rewrite find_user_own_or_lowered by exact Hok. rewrite Hfound. reflexivity.
Qed.

Lemma login_after_logout_example :
  returns_with
    (and_then (handleLogout true Examples.alice_world)
       (dispatch (fun s => handleLogin s Examples.alice_auth)))
    (fun w' =>
       cartItems (react w') = [Examples.p1; Examples.p2]
       /\ exists u',
            user (react w') = Some u'
            /\ User.cart u' = Some [Examples.p1; Examples.p2]
            /\ User.name u' = "Alice"
            /\ User.email u' = "alice@x.com"
            /\ User.password u' = None
            /\ User.orders u' = Some []).
Proof.
  apply (login_after_logout_restores_account_cart Examples.alice_world
           [("alice@x.com", Examples.alice); ("bob@x.com", Examples.bob)]
           Examples.alice_auth Examples.alice);
    vm_compute; reflexivity.
Defined.

(** **** Signed-in mutations *)

Lemma mutation_returns m w db :
  load_db w = Returns db w ->
  applicable m w ->
  exists u w',
    account m w db = Some u
    /\ run m w = Returns tt w'
    /\ user (react w') = Some (updated m (react w) u)
    /\ cartItems (react w') = User.cart_or_empty (updated m (react w) u)
    /\ localStorage w' = stored_after m (updated m (react w) u) db w.
Proof.
  intros Hload Happ.
  destruct m as [ product | id | randomId now deliveryDetails | userFromAuth ];
    cbn [applicable] in Happ; cbn [run account updated stored_after];
    unfold dispatch.
  - destruct Happ as (u & Hu). exists u.
    rewrite (addToCart_returns w db Hload _ product u Hu). cbv zeta.
    eexists. split; [ exact Hu | ]. split; [ reflexivity | ].
    cbn [react localStorage user cartItems persisted signed_in].
    split; [ reflexivity | ]. split; reflexivity.
  - destruct Happ as (u & Hu). exists u.
    rewrite (removeFromCart_returns w db Hload _ id u Hu). cbv zeta.
    eexists. split; [ exact Hu | ]. split; [ reflexivity | ].
    cbn [react localStorage user cartItems persisted signed_in].
    split; [ reflexivity | ]. split; reflexivity.
  - destruct Happ as ((u & Hu) & Hne). exists u.
    rewrite (processOrder_returns w db Hload _ randomId now deliveryDetails u
               Hu Hne). cbv zeta.
    eexists. split; [ exact Hu | ]. split; [ reflexivity | ].
    cbn [react localStorage user cartItems persisted signed_in].
    split; [ reflexivity | ]. split; reflexivity.
  - eexists.
    rewrite (handleLogin_returns w db Hload _ userFromAuth
               (own_or_lowered db (User.email userFromAuth))
               (find_user_own_or_lowered db _ w Happ)). cbv zeta.
    eexists. split; [ reflexivity | ]. split; [ reflexivity | ].
    cbn [react localStorage user cartItems persisted signed_in].
    split; [ reflexivity | ]. split; reflexivity.
Qed.

Lemma ready_applicable m w : ready m w -> applicable m w.
Proof.
  intros [ _ H ]. destruct m; cbn [applicable].
  - destruct H as ((u & Hu & _) & _). eauto.
  - destruct H as (u & Hu & _). eauto.
  - destruct H as ((u & Hu & _) & Hne & _). eauto.
  - unfold wf_user in H. apply andb_prop in H as [ _ H ]. exact H.
Qed.

Lemma forallb_filter {A : Type} (P f : A -> bool) l :
  forallb P l = true -> forallb P (filter f l) = true.
Proof.
  induction l as [ | a l IH ]; simpl; [ reflexivity | ].
  intro H. apply andb_prop in H as [ Ha Hl ].
  destruct (f a); simpl; [ rewrite Ha | ]; auto.
Qed.

Lemma updated_wf m w db u :
  load_db w = Returns db w ->
  wf_accounts db = true ->
  ready m w ->
  account m w db = Some u ->
  wf_user (updated m (react w) u) = true.
Proof.
  intros Hload Hacc [ Hcart H ] Hu.
  destruct m as [ product | id | randomId now deliveryDetails | userFromAuth ];
    cbn [account updated] in *.
  - destruct H as ((u0 & Hu0 & Hwf) & Hp).
    rewrite Hu in Hu0. injection Hu0 as <-.
    apply wf_user_with_cart; [ exact Hwf | ].
    apply forallb_app_true; [ exact Hcart | ]. cbn [forallb].
    rewrite Hp. reflexivity.
  - destruct H as (u0 & Hu0 & Hwf).
    rewrite Hu in Hu0. injection Hu0 as <-.
    apply wf_user_with_cart; [ exact Hwf | ].
    apply forallb_filter. exact Hcart.
  - destruct H as ((u0 & Hu0 & Hwf) & _ & Hsafe).
    rewrite Hu in Hu0. injection Hu0 as <-.
    apply wf_user_with_order; assumption.
  - injection Hu as <-.
    assert (Hok : ok_key (User.email userFromAuth) = true).
    { unfold wf_user in H. apply andb_prop in H as [ _ H ]. exact H. }
    exact (login_user_wf db userFromAuth
             (own_or_lowered db (User.email userFromAuth)) w
             (cartItems (react w))
             (find_user_own_or_lowered db _ w Hok)
             (load_db_wf_dir w db Hload Hacc) H Hcart).
Qed.

Lemma stored_after_session m u db w :
  obj_get SESSION (stored_after m u db w)
  = obj_get SESSION (localStorage (persisted u db w)).
Proof.
  destruct m; cbn [stored_after]; try reflexivity.
  apply obj_get_remove_other. reflexivity.
Qed.

Lemma stored_after_directory m u db w :
  obj_get USERS_DB (stored_after m u db w)
  = obj_get USERS_DB (localStorage (persisted u db w)).
Proof.
  destruct m; cbn [stored_after]; try reflexivity.
  apply obj_get_remove_other. reflexivity.
Qed.

(** A mutation of a well-formed world: what it returns, and the Session
    and the directory read back from it. *)
Lemma mutation_in_sync m w db :
  load_db w = Returns db w ->
  wf_accounts db = true ->
  ready m w ->
  exists u w',
    account m w db = Some u
    /\ run m w = Returns tt w'
    /\ user (react w') = Some (updated m (react w) u)
    /\ cartItems (react w') = User.cart_or_empty (updated m (react w) u)
    /\ localStorage w' = stored_after m (updated m (react w) u) db w
    /\ wf_user (updated m (react w) u) = true
    /\ session w' = Value (updated m (react w) u)
    /\ directory w'
       = Value (obj_set (User.email (updated m (react w) u))
                  (updated m (react w) u) db)
    /\ load_db w'
       = Returns (obj_set (User.email (updated m (react w) u))
                    (updated m (react w) u) db) w'.
Proof.
  intros Hload Hacc Hready.
  destruct (mutation_returns m w db Hload (ready_applicable m w Hready))
    as (u & w' & Hu & Hrun & Huser & Hcart & Hst).
  assert (Hwf := updated_wf m w db u Hload Hacc Hready Hu).
  destruct (persisted_in_sync (updated m (react w) u) db w w'
              (load_db_wf_dir w db Hload Hacc) Hwf) as (Hs & Hd & Hl & _).
  { rewrite Hst. apply stored_after_session. }
  { rewrite Hst. apply stored_after_directory. }
  exists u, w'. auto 10.
Qed.

(** X14. A reload after a mutation shows what the mutation left: the same
    signed-in record and the same live cart, read from the directory, and
    the reload writes nothing. *)
Theorem reload_after_mutation_restores_user_and_cart
  (w : World) (db : Directory) (m : mutation) :
  load_db w = Returns db w ->
  wf_accounts db = true ->
  ready m w ->
  exists w' w'',
    run m w = Returns tt w'
    /\ reload w' = Returns tt w''
    /\ user (react w'') = user (react w')
    /\ cartItems (react w'') = cartItems (react w')
    /\ localStorage w'' = localStorage w'.
Proof.
  intros Hload Hacc Hready.
  destruct (mutation_in_sync m w db Hload Hacc Hready)
    as (u & w' & _ & Hrun & Huser & Hcart & _ & _ & Hs & _ & Hl).
  exists w'. eexists. split; [ exact Hrun | ]. split.
  - apply (reload_activates w' _ _ (updated m (react w) u) Hs Hl).
    apply find_user_exact. apply obj_get_set_same.
  - cbn [react localStorage user cartItems].
    rewrite Huser, Hcart. auto.
Qed.

Lemma reload_after_mutation_example :
  exists w' w'',
    run (ProcessOrder "ORD-1" "2024-01-01T00:00:00.000Z" Examples.delivery)
      Examples.alice_world
    = Returns tt w'
    /\ reload w' = Returns tt w''
    /\ user (react w'') = user (react w')
    /\ cartItems (react w'') = cartItems (react w')
    /\ localStorage w'' = localStorage w'.
Proof.
  apply (reload_after_mutation_restores_user_and_cart Examples.alice_world
           [("alice@x.com", Examples.alice); ("bob@x.com", Examples.bob)]
           (ProcessOrder "ORD-1" "2024-01-01T00:00:00.000Z" Examples.delivery)).
  - vm_compute. reflexivity.
  - vm_compute. reflexivity.
  - split; [ vm_compute; reflexivity | ].
    split; [ exists Examples.alice; split; vm_compute; reflexivity | ].
    split; [ discriminate | vm_compute; reflexivity ].
Defined.

(** X15. After a mutation the live cart is the cart of the signed-in
    record; the record keeps the name, the email and the password it had,
    and its order history only grows at the end. *)
Theorem mutation_keeps_identity_and_history
  (w : World) (db : Directory) (m : mutation) :
  load_db w = Returns db w ->
  applicable m w ->
  exists u u' w',
    account m w db = Some u
    /\ run m w = Returns tt w'
    /\ user (react w') = Some u'
    /\ cartItems (react w') = User.cart_or_empty u'
    /\ User.name u' = User.name u
    /\ User.email u' = User.email u
    /\ User.password u' = User.password u
    /\ exists added,
         User.orders_or_empty u' = (User.orders_or_empty u ++ added)%list
         /\ (List.length added <= 1)%nat.
Proof.
  intros Hload Happ.
  destruct (mutation_returns m w db Hload Happ)
    as (u & w' & Hu & Hrun & Huser & Hcart & _).
  exists u, (updated m (react w) u), w'.
  split; [ exact Hu | ]. split; [ exact Hrun | ]. split; [ exact Huser | ].
  split; [ exact Hcart | ].
  destruct m; cbn [updated];
    (split; [ reflexivity | ]); (split; [ reflexivity | ]);
    (split; [ reflexivity | ]).
  - exists []. split; [ symmetry; apply app_nil_r | auto ].
  - exists []. split; [ symmetry; apply app_nil_r | auto ].
  - eexists. split; [ reflexivity | auto ].
  - exists []. split; [ symmetry; apply app_nil_r | auto ].
Qed.

Lemma mutation_identity_example :
  exists u u' w',
    account (RemoveFromCart "p1") Examples.alice_world
      [("alice@x.com", Examples.alice); ("bob@x.com", Examples.bob)]
    = Some u
    /\ run (RemoveFromCart "p1") Examples.alice_world = Returns tt w'
    /\ user (react w') = Some u'
    /\ cartItems (react w') = User.cart_or_empty u'
    /\ User.name u' = User.name u
    /\ User.email u' = User.email u
    /\ User.password u' = User.password u
    /\ exists added,
         User.orders_or_empty u' = (User.orders_or_empty u ++ added)%list
         /\ (List.length added <= 1)%nat.
Proof.
  apply (mutation_keeps_identity_and_history Examples.alice_world
           [("alice@x.com", Examples.alice); ("bob@x.com", Examples.bob)]
           (RemoveFromCart "p1")).
  - vm_compute. reflexivity.
  - exists Examples.alice. reflexivity.
Defined.

(** X16. A mutation changes one entry of the directory, the one under the
    email of the record it persists; every other key reads as before. *)
Theorem mutation_changes_one_directory_entry
  (w : World) (db : Directory) (m : mutation) :
  load_db w = Returns db w ->
  wf_accounts db = true ->
  ready m w ->
  exists u w' db',
    account m w db = Some u
    /\ run m w = Returns tt w'
    /\ directory w' = Value db'
    /\ obj_get (User.email u) db' = user (react w')
    /\ forall k, k <> User.email u -> obj_get k db' = obj_get k db.
Proof.
  intros Hload Hacc Hready.
  destruct (mutation_in_sync m w db Hload Hacc Hready)
    as (u & w' & Hu & Hrun & Huser & _ & _ & _ & _ & Hd & _).
  assert (He : User.email (updated m (react w) u) = User.email u)
    by (destruct m; reflexivity).
  rewrite He in Hd.
  exists u, w'. eexists. split; [ exact Hu | ]. split; [ exact Hrun | ].
  split; [ exact Hd | ]. split.
  - rewrite Huser. apply obj_get_set_same.
  - intros k Hk. apply obj_get_set_other. apply String.eqb_neq. exact Hk.
Qed.

Lemma mutation_one_entry_example :
  exists u w' db',
    account (Login Examples.alice_auth) Examples.guest_world
      [("alice@x.com", Examples.alice); ("bob@x.com", Examples.bob)]
    = Some u
    /\ run (Login Examples.alice_auth) Examples.guest_world = Returns tt w'
    /\ directory w' = Value db'
    /\ obj_get (User.email u) db' = user (react w')
    /\ forall k, k <> User.email u ->
                 obj_get k db'
                 = obj_get k [("alice@x.com", Examples.alice);
                              ("bob@x.com", Examples.bob)].
Proof.
  apply (mutation_changes_one_directory_entry Examples.guest_world
           [("alice@x.com", Examples.alice); ("bob@x.com", Examples.bob)]
           (Login Examples.alice_auth)).
  - vm_compute. reflexivity.
  - vm_compute. reflexivity.
  - split; vm_compute; reflexivity.
Defined.

(** X17. A mutation writes the session and the directory blob and no
    other key of [localStorage]; the guest cart blob is removed by a login
    and left alone by the others. *)
Theorem mutation_touches_only_its_blobs
  (w : World) (db : Directory) (m : mutation) :
  load_db w = Returns db w ->
  applicable m w ->
  exists w',
    run m w = Returns tt w'
    /\ (forall k, k <> SESSION -> k <> USERS_DB -> k <> GUEST_CART ->
                  obj_get k (localStorage w') = obj_get k (localStorage w))
    /\ obj_get GUEST_CART (localStorage w')
       = match m with
         | Login _ => None
         | _ => obj_get GUEST_CART (localStorage w)
         end.
Proof.
  intros Hload Happ.
  destruct (mutation_returns m w db Hload Happ)
    as (u & w' & _ & Hrun & _ & _ & Hst).
  exists w'. split; [ exact Hrun | ]. rewrite Hst. split.
  - intros k Hs Hd Hg. apply String.eqb_neq in Hs, Hd, Hg.
    destruct m; cbn [stored_after persisted localStorage];
      rewrite ?(obj_get_remove_other _ _ _ Hg);
      rewrite (obj_get_set_other _ _ _ _ Hd);
      apply (obj_get_set_other _ _ _ _ Hs).
  - destruct m; cbn [stored_after persisted localStorage];
      [ | | | apply obj_get_remove_same ];
      (rewrite obj_get_set_other by reflexivity);
      apply obj_get_set_other; reflexivity.
Qed.

Lemma mutation_blobs_example :
  exists w',
    run (Login Examples.alice_auth) Examples.guest_world = Returns tt w'
    /\ (forall k, k <> SESSION -> k <> USERS_DB -> k <> GUEST_CART ->
                  obj_get k (localStorage w')
                  = obj_get k (localStorage Examples.guest_world))
    /\ obj_get GUEST_CART (localStorage w') = None.
Proof.
  apply (mutation_touches_only_its_blobs Examples.guest_world
           [("alice@x.com", Examples.alice); ("bob@x.com", Examples.bob)]
           (Login Examples.alice_auth)).
  - vm_compute. reflexivity.
  - vm_compute. reflexivity.
Defined.

(** **** A directory blob that is not JSON *)




(** **** What the page shows *)

Lemma persistUser_left u w w' :
  left_by (persistUser u w) = Some w' -> cartItems (react w') = cartItems (react w).
Proof.
  unfold persistUser, mbind, setUser, update, setItem.
  cbn [react localStorage].
  match goal with
  | |- left_by match load_db ?W with _ => _ end = _ -> _ =>
      destruct (load_db_world W) as [ (db & H) | [ H | H ] ]; rewrite H
  end; cbn [left_by]; try discriminate;
    intro E; injection E as <-; reflexivity.
Qed.

Lemma cart_total_snoc c p :
  cart_total (c ++ [p]) = (cart_total c + Product.price p)%float.
Proof. unfold cart_total. rewrite fold_left_app. reflexivity. Qed.

(** X19. Whatever becomes of the write, [addToCart] has put the product
    at the end of the live cart: in the world it leaves, by returning or
    by throwing, the cart is one longer, the badge counts it and the total
    of the checkout is the old total plus the price. *)
Theorem addToCart_shows_the_product_even_when_persisting_fails
  (w w' : World) (product : Product.t) :
  left_by (dispatch (fun s => addToCart s product) w) = Some w' ->
  cartItems (react w') = (cartItems (react w) ++ [product])%list
  /\ cart_badge (react w') = Some (S (List.length (cartItems (react w))))
  /\ checkout_total (react w')
     = (checkout_total (react w) + Product.price product)%float.
Proof.
  intro Hleft.
  assert (Hcart : cartItems (react w') = (cartItems (react w) ++ [product])%list).
  { revert Hleft. unfold dispatch, addToCart, mbind, setCartItems, update.
    destruct (user (react w)) as [ u | ].
    - match goal with
      | |- left_by match persistUser ?U ?W with _ => _ end = _ -> _ =>
          assert (Hp := persistUser_left U W);
          destruct (persistUser U W) as [ [] w1 | e w1 | ]
      end; cbn [left_by] in *; try discriminate.
      + intro E. injection E as <-. cbn [react cartItems].
        rewrite (Hp w1 eq_refl). reflexivity.
      + intro E. injection E as <-. rewrite (Hp w1 eq_refl). reflexivity.
    - unfold persistGuestCart, setItem.
      intro E. injection E as <-. reflexivity. }
  split; [ exact Hcart | ]. split.
  - unfold cart_badge. rewrite Hcart.
    destruct (cartItems (react w)) as [ | p c ]; cbn [app List.length];
      [ reflexivity | ].
    rewrite length_app. cbn [List.length]. f_equal. f_equal. lia.
  - unfold checkout_total. rewrite Hcart. apply cart_total_snoc.
Qed.

Lemma addToCart_display_example :
  cartItems (react after_failed_add)
  = (cartItems (react signed_in_corrupt_directory) ++ [Examples.p3])%list
  /\ cart_badge (react after_failed_add)
     = Some (S (List.length (cartItems (react signed_in_corrupt_directory))))
  /\ checkout_total (react after_failed_add)
     = (checkout_total (react signed_in_corrupt_directory)
        + Product.price Examples.p3)%float.
Proof.
  apply (addToCart_shows_the_product_even_when_persisting_fails
           signed_in_corrupt_directory after_failed_add Examples.p3).
  vm_compute. reflexivity.
Defined.

(** **** [persistUser] and the keys of the directory *)

Lemma length_obj_set {A : Type} k (v : A) o :
  List.length (obj_set k v o)
  = if has_key k o then List.length o else S (List.length o).
Proof.
  destruct (has_key k o) eqn:Hk.
  - rewrite <- (length_map fst (obj_set k v o)), <- (length_map fst o).
    rewrite (map_fst_obj_set_present k v o Hk). reflexivity.
  - rewrite (obj_set_fresh k v o Hk), length_app. cbn [List.length]. lia.
Qed.

(** X20. [persistUser] adds an entry to the directory only for an email
    that is not a key yet, and then exactly one: an email that differs
    from a key in letter case makes a second entry for the account. The
    entry under the email is the record, every other key reads as
    before. *)
Theorem persistUser_adds_an_entry_only_for_a_new_key
  (w : World) (db : Directory) (u : User.t) :
  load_db w = Returns db w ->
  wf_accounts db = true ->
  wf_user u = true ->
  exists w' db',
    persistUser u w = Returns tt w'
    /\ directory w' = Value db'
    /\ obj_get (User.email u) db' = Some u
    /\ (forall k, k <> User.email u -> obj_get k db' = obj_get k db)
    /\ List.length db'
       = if has_key (User.email u) db then List.length db
         else S (List.length db).
Proof.
  intros Hload Hacc Hu.
  exists (persisted u db w), (obj_set (User.email u) u db).
  split; [ exact (persistUser_returns u w db Hload) | ].
  split.
  { apply persisted_directory; [ | exact Hu ].
    exact (load_db_wf_dir w db Hload Hacc). }
  split; [ apply obj_get_set_same | ].
  split; [ | apply length_obj_set ].
  intros k Hk. apply obj_get_set_other. apply String.eqb_neq. exact Hk.
Qed.

Lemma persistUser_new_key_example :
  exists w' db',
    persistUser Examples.Alice_cased Examples.alice_world = Returns tt w'
    /\ directory w' = Value db'
    /\ obj_get "Alice@X.com" db' = Some Examples.Alice_cased
    /\ (forall k, k <> "Alice@X.com" ->
                  obj_get k db'
                  = obj_get k [("alice@x.com", Examples.alice);
                               ("bob@x.com", Examples.bob)])
    /\ List.length db' = 3%nat.
Proof.
  apply (persistUser_adds_an_entry_only_for_a_new_key Examples.alice_world
           [("alice@x.com", Examples.alice); ("bob@x.com", Examples.bob)]
           Examples.Alice_cased);
    vm_compute; reflexivity.
Defined.

(** **** Starting twice *)

(** X21. Starting again changes nothing: after a start with a readable
    session and directory, a reload activates the same record and the same
    cart and writes nothing, whether the first start found the account in
    the directory or had to put it there. *)
Theorem second_start_changes_nothing
  (w : World) (db : Directory) (sessionUser : User.t) :
  session w = Value sessionUser ->
  load_db w = Returns db w ->
  wf_accounts db = true ->
  wf_user sessionUser = true ->
  exists w' w'',
    initialize w = Returns tt w'
    /\ reload w' = Returns tt w''
    /\ user (react w'') = user (react w')
    /\ cartItems (react w'') = cartItems (react w')
    /\ localStorage w'' = localStorage w'.
Proof.
  intros Hs Hload Hacc Hu.
  assert (Hok : ok_key (User.email sessionUser) = true).
  { unfold wf_user in Hu. apply andb_prop in Hu as [ _ Hu ]. exact Hu. }
  assert (Hfind := find_user_own_or_lowered db (User.email sessionUser) w Hok).
  destruct (own_or_lowered db (User.email sessionUser)) as [ u | ].
  - eexists. eexists.
    split; [ exact (initialize_activates w db sessionUser u Hs Hload Hfind) | ].
    split.
    + apply (reload_activates _ db sessionUser u).
      * unfold session. rewrite (read_depends decode_user SESSION w);
          [ exact Hs | reflexivity ].
      * apply (load_db_depends w); [ reflexivity | exact Hload ].
      * revert Hfind. unfold find_user, mbind, get_user, ret, ill_typed.
        destruct (obj_get (User.email sessionUser) db).
        { intro H. injection H as <-. reflexivity. }
        destruct (inherited (User.email sessionUser)); [ discriminate | ].
        destruct (obj_get (toLowerCase (User.email sessionUser)) db).
        { intro H. injection H as <-. reflexivity. }
        destruct (inherited (toLowerCase (User.email sessionUser)));
          discriminate.
    + cbn [react localStorage user cartItems]. auto.
  - eexists. eexists.
    split; [ exact (initialize_heals w db sessionUser Hs Hload Hfind) | ].
    assert (Hdb := load_db_wf_dir w db Hload Hacc).
    split.
    + apply (reload_activates _
               (obj_set (User.email sessionUser) sessionUser db)
               sessionUser sessionUser).
      * unfold session. rewrite (read_depends decode_user SESSION w);
          [ exact Hs | ].
        cbn [localStorage]. apply obj_get_set_other. reflexivity.
      * apply load_db_stringify.
        -- cbn [localStorage]. rewrite obj_get_set_same.
           rewrite put_user_set by (apply wf_user_key; exact Hu).
           reflexivity.
        -- apply wf_dir_obj_set; assumption.
      * apply find_user_exact. apply obj_get_set_same.
    + cbn [react localStorage user cartItems]. auto.
Qed.

Lemma second_start_example :
  exists w' w'',
    initialize Examples.healing_world = Returns tt w'
    /\ reload w' = Returns tt w''
    /\ user (react w'') = user (react w')
    /\ cartItems (react w'') = cartItems (react w')
    /\ localStorage w'' = localStorage w'.
Proof.
  apply (second_start_changes_nothing Examples.healing_world
           [("bob@x.com", Examples.bob)] Examples.alice);
    vm_compute; reflexivity.
Defined.

End Extras.
